(** * TinyLink: the Link Registry

    A shallow embedding of the route handlers of the TinyLink URL shortener

      - [app/api/links/route.ts]   (POST: create, GET: list)
      - [app/[code]/route.ts]      (GET: resolve and record a hit)

    together with the storage layer they call (the Prisma model [Link] with
    a unique [code] column) and the properties the specification states
    about them.

    Conventions.
    - A JavaScript string is a [string]; the handlers only ever inspect
      characters of the ASCII range.
    - The table [Link] is a finite map from [code] to the row: the column is
      declared [@unique], and every query of the handlers addresses rows by
      [code].
    - [clicks] is an integer of the column type [Int], which has 32 bits: the
      store refuses an update that would leave the range.
    - Clock readings, fresh identifiers and the outcomes of [Math.random]
      are inputs of a request (its environment).
    - [NextResponse.json] and [NextResponse.redirect] are constructors of
      responses: what the transport does with a response is outside the
      Registry.
    - The field [trace] of the store records the queries issued; it is there
      to state which queries a request has made, and no handler reads it. *)

From Stdlib Require Import ZArith Lia Ascii String.
From stdpp Require Import base option list sorting strings gmap fin_maps.

Local Open Scope string_scope.
Local Open Scope Z_scope.

(** ** JavaScript strings and the regular expression of [isValidCode] *)

Module Js.

(** [s.charAt(i)]: the one-character string at index [i], the empty
    string when [i] is out of range. *)
Definition charAt (s : string) (i : nat) : string :=
  match String.get i s with
  | Some c => String c EmptyString
  | None => EmptyString
  end.

(** Truthiness of a string value: only the empty string is falsy. *)
Definition truthy (s : string) : bool :=
  match s with
  | EmptyString => false
  | String _ _ => true
  end.

(** Truthiness of a body field that may be missing ([undefined]). *)
Definition truthy_field (v : option string) : bool :=
  match v with
  | None => false
  | Some s => truthy s
  end.

(** A character class is a list of inclusive ranges of character codes. *)
Definition char_class := list (nat * nat).

Definition in_range (c : ascii) (r : nat * nat) : bool :=
  (fst r <=? nat_of_ascii c)%nat && (nat_of_ascii c <=? snd r)%nat.

Definition in_class (cls : char_class) (c : ascii) : bool :=
  existsb (in_range c) cls.

(** The class [[A-Za-z0-9]]. *)
Definition alnum : char_class :=
  [ (nat_of_ascii "A", nat_of_ascii "Z")
  ; (nat_of_ascii "a", nat_of_ascii "z")
  ; (nat_of_ascii "0", nat_of_ascii "9") ]%char.

(** Greedy matching of [cls{0,hi}] at the head of [s]: the number of
    characters consumed and the remainder. *)
Fixpoint match_class_upto (cls : char_class) (hi : nat) (s : string)
  : nat * string :=
  match hi, s with
  | S hi', String c s' =>
      if in_class cls c
      then let '(n, rest) := match_class_upto cls hi' s' in (S n, rest)
      else (O, s)
  | _, _ => (O, s)
  end.

(** [/^cls{lo,hi}$/.test(s)].  Without the [m] flag [$] only matches at
    the end of the input, so the match succeeds when the greedy run has at
    least [lo] characters and nothing is left. *)
Definition test_anchored_rep (cls : char_class) (lo hi : nat) (s : string)
  : bool :=
  let '(n, rest) := match_class_upto cls hi s in
  (lo <=? n)%nat && negb (truthy rest).

End Js.

(** ** Helpers of [app/api/links/route.ts] *)

(** [isValidCode]: [/^[A-Za-z0-9]{6,8}$/.test(code)]. *)
Definition isValidCode (code : string) : bool :=
  Js.test_anchored_rep Js.alnum 6 8 code.

(** The alphabet of [generateRandomCode]. *)
Definition chars : string :=
  "ABCDEFGHIJKLMNOPQRSTUVWXYZabcdefghijklmnopqrstuvwxyz0123456789".

(** The source of randomness.  The [k]-th call of [Math.random()] made
    while serving a request is represented by the index
    [Math.floor(Math.random() * chars.length)] it is used for; [pos] counts
    the calls made so far. *)
Definition Random := nat -> nat.

(** [generateRandomCode]: the loop [for (i = 0; i < 6; i++)] appends
    [chars.charAt(index)] for six successive draws.  [n] is the number of
    iterations left. *)
Fixpoint generate_from (rnd : Random) (n : nat) (pos : nat) (code : string)
  : string :=
  match n with
  | O => code
  | S n' => generate_from rnd n' (S pos) (code ++ Js.charAt chars (rnd pos))
  end.

Definition generateRandomCode (rnd : Random) (pos : nat) : string * nat :=
  (generate_from rnd 6 pos "", (pos + 6)%nat).

(** ** The platform's URL parser

    [isValidUrl] relies on the constructor [URL] of the platform: the basic
    URL parser of the WHATWG URL standard, called without a base URL.  The
    handlers below take the parser as a parameter.  [Whatwg.parse] is an
    instance that follows the state machine of the standard (scheme start,
    scheme, no scheme, special authority slashes, path or authority,
    authority, host, port, file, file host, opaque path) on ASCII input.
    The canonical form of a host (IDNA, percent-decoding, IPv4 and IPv6
    literals) is outside its scope: a host is checked for forbidden code
    points and kept as written.  On a target whose host is a bracketed
    literal, ends in a number or has a percent escape, the instance can
    therefore accept where the platform rejects, or the reverse.  The
    properties use it on targets with a plain ASCII domain or without a
    host, and for the scheme. *)

Module Whatwg.

Record URLRecord := mkURL {
  scheme : string;
  host : option string;   (* [None]: the URL has a null host *)
}.

Definition code (c : ascii) : nat := nat_of_ascii c.

Definition between (lo hi : nat) (c : ascii) : bool :=
  (lo <=? code c)%nat && (code c <=? hi)%nat.

Definition is_alpha (c : ascii) : bool := between 65 90 c || between 97 122 c.
Definition is_digit (c : ascii) : bool := between 48 57 c.
Definition is_c0_or_space (c : ascii) : bool := (code c <=? 32)%nat.
Definition is_tab_or_newline (c : ascii) : bool :=
  (code c =? 9)%nat || (code c =? 10)%nat || (code c =? 13)%nat.
Definition is_slash (c : ascii) : bool :=
  (code c =? 47)%nat || (code c =? 92)%nat.

Definition to_lower (c : ascii) : ascii :=
  if between 65 90 c then ascii_of_nat (code c + 32) else c.

Fixpoint lower (s : string) : string :=
  match s with
  | EmptyString => EmptyString
  | String c s' => String (to_lower c) (lower s')
  end.

Fixpoint drop_while (p : ascii -> bool) (s : string) : string :=
  match s with
  | EmptyString => EmptyString
  | String c s' => if p c then drop_while p s' else s
  end.

Fixpoint take_while (p : ascii -> bool) (s : string) : string :=
  match s with
  | EmptyString => EmptyString
  | String c s' => if p c then String c (take_while p s') else EmptyString
  end.

Fixpoint strip_trailing (p : ascii -> bool) (s : string) : string :=
  match s with
  | EmptyString => EmptyString
  | String c s' =>
      match strip_trailing p s' with
      | EmptyString => if p c then EmptyString else String c EmptyString
      | r => String c r
      end
  end.

Fixpoint remove (p : ascii -> bool) (s : string) : string :=
  match s with
  | EmptyString => EmptyString
  | String c s' => if p c then remove p s' else String c (remove p s')
  end.

Fixpoint all_chars (p : ascii -> bool) (s : string) : bool :=
  match s with
  | EmptyString => true
  | String c s' => p c && all_chars p s'
  end.

(** The input with leading and trailing C0 controls and spaces stripped
    and every tab and newline removed. *)
Definition preprocess (s : string) : string :=
  remove is_tab_or_newline
    (strip_trailing is_c0_or_space (drop_while is_c0_or_space s)).

(** Scheme state: the characters up to the first [:] must be ASCII
    alphanumerics, [+], [-] or [.]; anything else, or the end of the
    input, leads to the no scheme state, which fails without a base. *)
Fixpoint scheme_state (s : string) (buffer : string)
  : option (string * string) :=
  match s with
  | EmptyString => None
  | String c s' =>
      if (code c =? 58)%nat then Some (buffer, s')
      else if is_alpha c || is_digit c || (code c =? 43)%nat
              || (code c =? 45)%nat || (code c =? 46)%nat
      then scheme_state s' (buffer ++ String (to_lower c) EmptyString)
      else None
  end.

(** Scheme start state: the first character must be an ASCII letter. *)
Definition scheme_start_state (s : string) : option (string * string) :=
  match s with
  | String c _ => if is_alpha c then scheme_state s EmptyString else None
  | EmptyString => None
  end.

Definition is_special (sch : string) : bool :=
  bool_decide (sch ∈ ["ftp"; "file"; "http"; "https"; "ws"; "wss"]).

(** Forbidden host code points, and forbidden domain code points. *)
Definition forbidden_host (c : ascii) : bool :=
  bool_decide (code c ∈
    [0; 9; 10; 13; 32; 35; 47; 58; 60; 62; 63; 64; 91; 92; 93; 94; 124]%nat).

Definition forbidden_domain (c : ascii) : bool :=
  forbidden_host c || (code c <=? 31)%nat || (code c =? 37)%nat
  || (code c =? 127)%nat.

Definition last_char (s : string) : option ascii :=
  match String.length s with
  | O => None
  | S n => String.get n s
  end.

(** Host parser. *)
Definition parse_host (isOpaque : bool) (input : string) : option string :=
  match input with
  | String "["%char _ =>
      if bool_decide (last_char input = Some "]"%char)
      then Some input else None
  | _ =>
      if isOpaque
      then if all_chars (fun c => negb (forbidden_host c)) input
           then Some input else None
      else if all_chars (fun c => negb (forbidden_domain c)) input
              && Js.truthy input
           then Some (lower input) else None
  end.

(** Port state: only digits, and a value of at most 65535. *)
Fixpoint decimal (s : string) (acc : N) : N :=
  match s with
  | EmptyString => acc
  | String c s' => decimal s' (10 * acc + N.of_nat (code c - 48))%N
  end.

Definition port_state (s : string) : bool :=
  all_chars is_digit s && (decimal s 0 <=? 65535)%N.

(** Host state on the authority without its credentials. *)
Fixpoint host_state (special : bool) (s : string) (buffer : string)
    (insideBrackets : bool) : option string :=
  match s with
  | EmptyString =>
      if special && negb (Js.truthy buffer) then None
      else parse_host (negb special) buffer
  | String c s' =>
      if (code c =? 58)%nat && negb insideBrackets then
        if negb (Js.truthy buffer) then None
        else match parse_host (negb special) buffer with
             | Some h => if port_state s' then Some h else None
             | None => None
             end
      else
        host_state special s' (buffer ++ String c EmptyString)
          (if (code c =? 91)%nat then true
           else if (code c =? 93)%nat then false else insideBrackets)
  end.

(** The part of [s] after its last [@], when it has one. *)
Fixpoint after_last_at (s : string) : option string :=
  match s with
  | EmptyString => None
  | String c s' =>
      match after_last_at s' with
      | Some r => Some r
      | None => if (code c =? 64)%nat then Some s' else None
      end
  end.

Definition is_authority_end (special : bool) (c : ascii) : bool :=
  (code c =? 47)%nat || (code c =? 63)%nat || (code c =? 35)%nat
  || (special && (code c =? 92)%nat).

(** Authority state. *)
Definition authority_state (special : bool) (s : string) : option string :=
  let authority := take_while (fun c => negb (is_authority_end special c)) s in
  match after_last_at authority with
  | Some EmptyString => None
  | Some hostport => host_state special hostport EmptyString false
  | None => host_state special authority EmptyString false
  end.

Definition is_windows_drive_letter (s : string) : bool :=
  match s with
  | String c (String d EmptyString) =>
      is_alpha c && ((code d =? 58)%nat || (code d =? 124)%nat)
  | _ => false
  end.

(** File state, file slash state and file host state. *)
Definition file_state (s : string) : option string :=
  match s with
  | String c (String d s') =>
      if is_slash c && is_slash d then
        let buffer := take_while (fun c => negb (is_authority_end true c)) s' in
        if is_windows_drive_letter buffer || negb (Js.truthy buffer)
        then Some EmptyString
        else match parse_host false buffer with
             | Some h => if String.eqb h "localhost"
                         then Some EmptyString else Some h
             | None => None
             end
      else Some EmptyString
  | _ => Some EmptyString
  end.

(** [new URL(input)]: the URL record, or [None] when the constructor
    throws a [TypeError]. *)
Definition parse (input : string) : option URLRecord :=
  match scheme_start_state (preprocess input) with
  | None => None
  | Some (sch, rest) =>
      if String.eqb sch "file" then
        mkURL sch <$> (Some <$> file_state rest)
      else if is_special sch then
        mkURL sch <$> (Some <$> authority_state true (drop_while is_slash rest))
      else
        match rest with
        | String "/"%char (String "/"%char rest') =>
            mkURL sch <$> (Some <$> authority_state false rest')
        | _ => Some (mkURL sch None)
        end
  end.

End Whatwg.

(** ** The data model: [model Link] of [prisma/schema.prisma] *)

Definition DateTime := Z.

Module Link.

Record t := mk {
  id : string;                     (* @id @default(cuid()) *)
  code : string;                   (* @unique *)
  targetUrl : string;
  clicks : Z;                      (* @default(0) *)
  lastClicked : option DateTime;   (* DateTime? *)
  createdAt : DateTime;            (* @default(now()) *)
  updatedAt : DateTime;            (* @updatedAt *)
}.

End Link.

(** ** The storage layer: the queries of [prisma.link] *)

(** The queries sent to the store, in the order they were issued. *)
Inductive Query :=
| QFindUnique (code : string)
| QFindMany
| QCreate (code : string)
| QUpdate (code : string)
| QDelete (code : string).

Record Store := mkStore {
  table : gmap string Link.t;
  trace : list Query;
}.

(** What a query can throw: a violated unique constraint, a record that was
    required but not found, a value out of the range of its column, an
    argument of the wrong shape. *)
Inductive PrismaError := P2002 | P2025 | P2020 | ValidationError.

Inductive Result (A : Type) :=
| Ok (a : A)
| Throw (e : PrismaError).
Arguments Ok {A} a.
Arguments Throw {A} e.

(** The range of a column of type [Int]. *)
Definition Int_MIN : Z := -2147483648.
Definition Int_MAX : Z := 2147483647.

Definition is_Int (z : Z) : bool := (Int_MIN <=? z) && (z <=? Int_MAX).

(** A computation that awaits queries: it threads the store and may throw. *)
Definition Prisma (A : Type) : Type := Store -> Result A * Store.

Definition ret {A} (a : A) : Prisma A := fun st => (Ok a, st).

Definition throw {A} (e : PrismaError) : Prisma A := fun st => (Throw e, st).

Definition bind {A B} (m : Prisma A) (k : A -> Prisma B) : Prisma B :=
  fun st =>
    match m st with
    | (Ok a, st') => k a st'
    | (Throw e, st') => (Throw e, st')
    end.

Notation "x <- m ;; k" := (bind m (fun x => k))
  (at level 100, m at next level, right associativity).

Definition issue (q : Query) (st : Store) : Store :=
  mkStore (table st) (trace st ++ [q]).

(** The order [orderBy: { createdAt: 'desc' }]. *)
Definition createdAt_desc (a b : Link.t) : Prop :=
  Link.createdAt b <= Link.createdAt a.

#[global] Instance createdAt_desc_dec a b : Decision (createdAt_desc a b) :=
  decide (Link.createdAt b <= Link.createdAt a).

Module prisma.

(** [prisma.link.findUnique({ where: { code } })] *)
Definition findUnique (code : string) : Prisma (option Link.t) :=
  fun st => (Ok (table st !! code), issue (QFindUnique code) st).

(** [prisma.link.findMany({ orderBy: { createdAt: 'desc' } })] *)
Definition findMany : Prisma (list Link.t) :=
  fun st =>
    (Ok (merge_sort createdAt_desc (map_to_list (table st)).*2),
     issue QFindMany st).

(** [prisma.link.create({ data: { code, targetUrl } })]: the remaining
    columns take their defaults; [cuid] and [stamp] are the identifier and
    the time the storage layer assigns. *)
Definition create (code targetUrl : string) (cuid : string) (stamp : DateTime)
  : Prisma Link.t :=
  fun st =>
    match table st !! code with
    | Some _ => (Throw P2002, issue (QCreate code) st)
    | None =>
        let link := Link.mk cuid code targetUrl 0 None stamp stamp in
        (Ok link,
         issue (QCreate code) (mkStore (<[code := link]> (table st)) (trace st)))
    end.

(** [prisma.link.update({ where: { code }, data })]: [data] is applied to
    the stored row in one step, and [updatedAt] is refreshed.  When the new
    value of [clicks] does not fit the column the update is refused and the
    row stays as it is. *)
Definition update (code : string) (data : Link.t -> Link.t) (stamp : DateTime)
  : Prisma Link.t :=
  fun st =>
    match table st !! code with
    | None => (Throw P2025, issue (QUpdate code) st)
    | Some row =>
        let d := data row in
        if is_Int (Link.clicks d) then
          let link := Link.mk (Link.id d) (Link.code d) (Link.targetUrl d)
                        (Link.clicks d) (Link.lastClicked d)
                        (Link.createdAt d) stamp in
          (Ok link,
           issue (QUpdate code) (mkStore (<[code := link]> (table st)) (trace st)))
        else (Throw P2020, issue (QUpdate code) st)
    end.

(** [prisma.link.delete({ where: { code } })] *)
Definition delete (code : string) : Prisma Link.t :=
  fun st =>
    match table st !! code with
    | None => (Throw P2025, issue (QDelete code) st)
    | Some row =>
        (Ok row,
         issue (QDelete code) (mkStore (base.delete code (table st)) (trace st)))
    end.

End prisma.

(** ** Requests and responses *)

(** The JSON body of a create request, [{ targetUrl, code }]: a field is
    missing or a string.  A request whose body is not a JSON object, or
    whose fields have another type, is not a value of this type. *)
Record Body := mkBody {
  body_targetUrl : option string;
  body_code : option string;
}.

(** What a handler reads from its surroundings while it serves one request. *)
Record Env := mkEnv {
  random : Random;    (* the draws of [Math.random] *)
  now : DateTime;     (* [new Date()] in the handler *)
  stamp : DateTime;   (* the clock of the storage layer *)
  cuid : string;      (* the identifier the storage layer would assign *)
}.

Inductive Payload :=
| ErrorJson (error : string)
| MessageJson (message : string)
| LinkJson (link : Link.t)
| LinksJson (links : list Link.t).

Inductive Response :=
| NextResponse_json (body : Payload) (status : Z)
| NextResponse_redirect (url : string) (status : Z).

(** [try { ... } catch (error) { return fallback }] around a handler body. *)
Definition try_catch (m : Prisma Response) (fallback : Response)
  : Store -> Response * Store :=
  fun st =>
    match m st with
    | (Ok r, st') => (r, st')
    | (Throw _, st') => (fallback, st')
    end.

(** ** [app/api/links/route.ts] *)

Module ApiLinks.

Section Handlers.

(** [new URL(s)]: [None] when the constructor throws. *)
Variable URL_new : string -> option Whatwg.URLRecord.

(** [isValidUrl] *)
Definition isValidUrl (s : string) : bool :=
  match URL_new s with
  | Some _ => true
  | None => false
  end.

(** [GET]: list all links. *)
Definition GET : Store -> Response * Store :=
  try_catch
    (links <- prisma.findMany ;;
     ret (NextResponse_json (LinksJson links) 200))
    (NextResponse_json (ErrorJson "Failed to fetch links") 500).

Definition maxAttempts : nat := 10.

(** The loop [while (attempts < maxAttempts)] of [POST].  Its state is
    [attempts], the variable [code] and the position in the random
    source; [fuel] bounds the number of iterations. *)
Fixpoint generate_loop (rnd : Random) (fuel : nat) (attempts : nat)
    (pos : nat) (code : option string) : Prisma (nat * option string) :=
  match fuel with
  | O => ret (attempts, code)
  | S fuel' =>
      if (attempts <? maxAttempts)%nat then
        let '(candidate, pos') := generateRandomCode rnd pos in
        existingLink <- prisma.findUnique candidate ;;
        match existingLink with
        | None => ret (attempts, Some candidate)             (* break *)
        | Some _ =>
            generate_loop rnd fuel' (S attempts) pos' (Some candidate)
        end
      else ret (attempts, code)
  end.

(** The part of [POST] that determines the code to use: either an early
    response ([inl]) or the value of [code] ([inr]). *)
Definition determine_code (customCode : option string) (env : Env)
  : Prisma (Response + option string) :=
  if Js.truthy_field customCode then
    let customCode := default "" customCode in
    if negb (isValidCode customCode) then
      ret (inl (NextResponse_json
                  (ErrorJson "Custom code must be 6-8 alphanumeric characters")
                  400))
    else
      existingLink <- prisma.findUnique customCode ;;
      match existingLink with
      | Some _ =>
          ret (inl (NextResponse_json
                      (ErrorJson "This short code is already taken") 409))
      | None => ret (inr (Some customCode))
      end
  else
    r <- generate_loop (random env) maxAttempts 0 0 customCode ;;
    let '(attempts, code) := r in
    if (maxAttempts <=? attempts)%nat then
      ret (inl (NextResponse_json
                  (ErrorJson "Failed to generate unique code. Please try again.")
                  500))
    else ret (inr code).

(** [POST]: create a new link. *)
Definition POST (body : Body) (env : Env) : Store -> Response * Store :=
  try_catch
    (let targetUrl := body_targetUrl body in
     let customCode := body_code body in
     if negb (Js.truthy_field targetUrl) then
       ret (NextResponse_json (ErrorJson "Target URL is required") 400)
     else
       let targetUrl := default "" targetUrl in
       if negb (isValidUrl targetUrl) then
         ret (NextResponse_json (ErrorJson "Invalid URL format") 400)
       else
         r <- determine_code customCode env ;;
         match r with
         | inl response => ret response
         | inr None => throw ValidationError
         | inr (Some code) =>
             link <- prisma.create code targetUrl (cuid env) (stamp env) ;;
             ret (NextResponse_json (LinkJson link) 201)
         end)
    (NextResponse_json (ErrorJson "Failed to create link") 500).

End Handlers.

End ApiLinks.

(** ** [app/[code]/route.ts] *)

Module CodeRoute.

(** The [data] of the update: [clicks: { increment: 1 }] and
    [lastClicked: new Date()]. *)
Definition record_click (now : DateTime) (row : Link.t) : Link.t :=
  Link.mk (Link.id row) (Link.code row) (Link.targetUrl row)
    (Link.clicks row + 1) (Some now)
    (Link.createdAt row) (Link.updatedAt row).

(** [GET]: redirect to the target URL and increment the click count.
    [NextResponse.redirect] is given the stored target as it is; it builds
    the response for a target the URL constructor accepts, as is every
    target a create has stored. *)
Definition GET (code : string) (env : Env) : Store -> Response * Store :=
  try_catch
    (link <- prisma.findUnique code ;;
     match link with
     | None => ret (NextResponse_json (ErrorJson "Link not found") 404)
     | Some link =>
         _ <- prisma.update code (record_click (now env)) (stamp env) ;;
         ret (NextResponse_redirect (Link.targetUrl link) 302)
     end)
    (NextResponse_json (ErrorJson "Internal server error") 500).

End CodeRoute.

(** ** [app/api/links/[code]/route.ts] *)

Module ApiLinksCode.

(** Modelled from the spec: the handler [GET] of
    [app/api/links/[code]/route.ts] (operation [get]) is not among the
    sources.  "Pure read, no mutation, no side effects.  Fails with
    NotFound if no live Link has that code"; success is 200 with the full
    Link record, NotFound is 404. *)
Definition GET (code : string) : Store -> Response * Store :=
  try_catch
    (link <- prisma.findUnique code ;;
     match link with
     | None => ret (NextResponse_json (ErrorJson "Link not found") 404)
     | Some link => ret (NextResponse_json (LinkJson link) 200)
     end)
    (NextResponse_json (ErrorJson "Internal server error") 500).

(** Modelled from the spec: the handler [DELETE] of
    [app/api/links/[code]/route.ts] (operation [delete]) is not among the
    sources; EXPLANATION.md quotes it in abridged form, without the error
    path.  "Removes the Link permanently.  Fails with NotFound if no live
    Link has that code"; success is 200 with a confirmation, NotFound is
    404. *)
Definition DELETE (code : string) : Store -> Response * Store :=
  try_catch
    (link <- prisma.findUnique code ;;
     match link with
     | None => ret (NextResponse_json (ErrorJson "Link not found") 404)
     | Some _ =>
         _ <- prisma.delete code ;;
         ret (NextResponse_json (MessageJson "Link deleted successfully") 200)
     end)
    (NextResponse_json (ErrorJson "Internal server error") 500).

End ApiLinksCode.

(** ** Outcomes of the Registry operations

    The error kinds of the specification, read off a response. *)

Inductive ErrorKind :=
| InvalidTarget
| InvalidCode
| CodeConflict
| ExhaustedCodeSpace
| NotFound
| StorageFailure.

Definition error_kind (r : Response) : option ErrorKind :=
  match r with
  | NextResponse_json (ErrorJson msg) 400 =>
      if String.eqb msg "Custom code must be 6-8 alphanumeric characters"
      then Some InvalidCode else Some InvalidTarget
  | NextResponse_json (ErrorJson _) 409 => Some CodeConflict
  | NextResponse_json (ErrorJson _) 404 => Some NotFound
  | NextResponse_json (ErrorJson msg) 500 =>
      if String.eqb msg "Failed to generate unique code. Please try again."
      then Some ExhaustedCodeSpace else Some StorageFailure
  | _ => None
  end.

(** ** The Registry as a whole: sequences of requests *)

Module Registry.

Inductive Call :=
| Create (body : Body) (env : Env)
| Resolve (code : string) (env : Env)
| Get (code : string)
| List
| Delete (code : string).

Section Serve.

Variable URL_new : string -> option Whatwg.URLRecord.

Definition serve (c : Call) : Store -> Response * Store :=
  match c with
  | Create body env => ApiLinks.POST URL_new body env
  | Resolve code env => CodeRoute.GET code env
  | Get code => ApiLinksCode.GET code
  | List => ApiLinks.GET
  | Delete code => ApiLinksCode.DELETE code
  end.

(** Requests served one after the other: the responses, in order, and
    the final store. *)
Fixpoint serve_all (cs : list Call) (st : Store) : list Response * Store :=
  match cs with
  | [] => ([], st)
  | c :: cs' =>
      let '(r, st') := serve c st in
      let '(rs, st'') := serve_all cs' st' in
      (r :: rs, st'')
  end.

End Serve.

(** The response reports the creation of a Link with the given code. *)
Definition created_with (code : string) (r : Response) : Prop :=
  match r with
  | NextResponse_json (LinkJson link) 201 => Link.code link = code
  | _ => False
  end.

(** The invariant of the table: a row is stored under its own code, and
    that code has the format of [isValidCode]. *)
Definition well_formed (m : gmap string Link.t) : Prop :=
  forall k link, m !! k = Some link ->
    Link.code link = k /\ isValidCode k = true.

End Registry.

(** ** Concurrent resolutions

    Each request to [CodeRoute.GET] awaits two queries.  Between the two,
    requests served at the same time may run their own queries; a query is
    one step on the store.  A task is a request in flight. *)

Module Concurrent.

Inductive Task :=
| Start (env : Env)                    (* before [findUnique] *)
| Found (link : Link.t) (env : Env)    (* holds [link], before [update] *)
| Done (r : Response).

(** The next query of a task, with the continuation of [CodeRoute.GET]. *)
Definition step (code : string) (t : Task) (st : Store) : Task * Store :=
  match t with
  | Start env =>
      match prisma.findUnique code st with
      | (Ok None, st') =>
          (Done (NextResponse_json (ErrorJson "Link not found") 404), st')
      | (Ok (Some link), st') => (Found link env, st')
      | (Throw _, st') =>
          (Done (NextResponse_json (ErrorJson "Internal server error") 500), st')
      end
  | Found link env =>
      match prisma.update code (CodeRoute.record_click (now env)) (stamp env) st with
      | (Ok _, st') =>
          (Done (NextResponse_redirect (Link.targetUrl link) 302), st')
      | (Throw _, st') =>
          (Done (NextResponse_json (ErrorJson "Internal server error") 500), st')
      end
  | Done r => (Done r, st)
  end.

(** One scheduling decision: task [i] performs its next query. *)
Definition schedule (code : string) (cfg : list Task * Store) (i : nat)
  : list Task * Store :=
  match fst cfg !! i with
  | Some t =>
      let '(t', st') := step code t (snd cfg) in
      (<[i := t']> (fst cfg), st')
  | None => cfg
  end.

(** An interleaving is the list of the scheduling decisions. *)
Definition run (code : string) (sched : list nat) (cfg : list Task * Store)
  : list Task * Store :=
  fold_left (schedule code) sched cfg.

(** A task has completed with the redirect. *)
Definition succeeded (t : Task) : Prop :=
  exists url, t = Done (NextResponse_redirect url 302).

End Concurrent.

(** ** The vocabulary of the properties *)

Definition is_alnum (c : ascii) : bool := Js.in_class Js.alnum c.

(** A draw is in range when it is an index into [chars]: that is the case
    for [Math.floor(Math.random() * chars.length)], since [Math.random()]
    lies in the interval from 0 (inclusive) to 1 (exclusive). *)
Definition in_range_draws (rnd : Random) : Prop :=
  forall k, (rnd k < String.length chars)%nat.

(** The [k]-th candidate of a request: the code made of the draws
    [6k .. 6k+5]. *)
Definition candidate (rnd : Random) (k : nat) : string :=
  fst (generateRandomCode rnd (6 * k)).

(** The first of the candidates [a, a+1, ..., a+n-1] that is not the code of
    a stored Link. *)
Fixpoint first_free (m : gmap string Link.t) (rnd : Random) (n a : nat)
  : option nat :=
  match n with
  | O => None
  | S n' =>
      match m !! candidate rnd a with
      | None => Some a
      | Some _ => first_free m rnd n' (S a)
      end
  end.

(** The queries of the loop for the candidates [a .. a+n-1]. *)
Definition lookups (rnd : Random) (a n : nat) : list Query :=
  map (fun k => QFindUnique (candidate rnd k)) (seq a n).

(** The row [prisma.link.create] stores for a request. *)
Definition new_link (env : Env) (code targetUrl : string) : Link.t :=
  Link.mk (cuid env) code targetUrl 0 None (stamp env) (stamp env).

(** The target passes both checks of [POST]: it is a non-empty string and
    the URL constructor accepts it. *)
Definition valid_target (URL_new : string -> option Whatwg.URLRecord)
    (targetUrl : option string) : bool :=
  Js.truthy_field targetUrl && ApiLinks.isValidUrl URL_new (default "" targetUrl).

(** The five ways a request with a valid target ends. *)
Inductive Outcome (body : Body) (env : Env) (st : Store)
  : Response -> Store -> Prop :=
| RejectedCode code :
    body_code body = Some code -> code <> "" -> isValidCode code = false ->
    Outcome body env st
      (NextResponse_json
         (ErrorJson "Custom code must be 6-8 alphanumeric characters") 400)
      st
| Conflict code link :
    body_code body = Some code -> code <> "" -> isValidCode code = true ->
    table st !! code = Some link ->
    Outcome body env st
      (NextResponse_json (ErrorJson "This short code is already taken") 409)
      (issue (QFindUnique code) st)
| CreatedRequested code targetUrl :
    body_targetUrl body = Some targetUrl ->
    body_code body = Some code -> code <> "" -> isValidCode code = true ->
    table st !! code = None ->
    Outcome body env st
      (NextResponse_json (LinkJson (new_link env code targetUrl)) 201)
      (mkStore (<[code := new_link env code targetUrl]> (table st))
         (trace st ++ [QFindUnique code; QCreate code]))
| CreatedGenerated j targetUrl :
    body_targetUrl body = Some targetUrl ->
    Js.truthy_field (body_code body) = false ->
    first_free (table st) (random env) ApiLinks.maxAttempts 0 = Some j ->
    Outcome body env st
      (NextResponse_json
         (LinkJson (new_link env (candidate (random env) j) targetUrl)) 201)
      (mkStore (<[candidate (random env) j
                  := new_link env (candidate (random env) j) targetUrl]>
                  (table st))
         (trace st ++ lookups (random env) 0 (S j)
            ++ [QCreate (candidate (random env) j)]))
| Exhausted :
    Js.truthy_field (body_code body) = false ->
    first_free (table st) (random env) ApiLinks.maxAttempts 0 = None ->
    Outcome body env st
      (NextResponse_json
         (ErrorJson "Failed to generate unique code. Please try again.") 500)
      (mkStore (table st)
         (trace st ++ lookups (random env) 0 ApiLinks.maxAttempts)).

(** The draws of a request are in range (only a create draws). *)
Definition call_in_range (c : Registry.Call) : Prop :=
  match c with
  | Registry.Create _ env => in_range_draws (random env)
  | _ => True
  end.

(** The row after a recorded click. *)
Definition clicked (env : Env) (row : Link.t) : Link.t :=
  Link.mk (Link.id row) (Link.code row) (Link.targetUrl row)
    (Link.clicks row + 1) (Some (now env)) (Link.createdAt row) (stamp env).

Definition is_redirected (t : Concurrent.Task) : nat :=
  match t with
  | Concurrent.Done (NextResponse_redirect _ 302) => 1
  | _ => 0
  end.

(** The number of tasks that have completed with the redirect. *)
Fixpoint redirect_count (ts : list Concurrent.Task) : nat :=
  match ts with
  | [] => 0
  | t :: ts' => is_redirected t + redirect_count ts'
  end.

(** How far a task has got: the number of queries it has made. *)
Definition stage (t : Concurrent.Task) : nat :=
  match t with
  | Concurrent.Start _ => 0
  | Concurrent.Found _ _ => 1
  | Concurrent.Done _ => 2
  end.

(** The invariant of the interleavings: the row is there and its [clicks] is
    the initial value plus the number of tasks that have completed with the
    redirect. *)
Definition counted (code : string) (clicks0 : Z) (cfg : list Concurrent.Task * Store)
  : Prop :=
  exists row, table (snd cfg) !! code = Some row /\
              Link.clicks row = clicks0 + Z.of_nat (redirect_count (fst cfg)).

(** ** The dashboard page: the search box *)

Module Dashboard.

(** [s.toLowerCase()], on the ASCII range. *)
Definition toLowerCase (s : string) : string := Whatwg.lower s.

(** [s.includes(sub)]: [sub] occurs in [s] at some position. *)
Fixpoint includes (s sub : string) : bool :=
  String.prefix sub s ||
  match s with
  | EmptyString => false
  | String _ s' => includes s' sub
  end.

(** The predicate of [links.filter(...)]: the query occurs, letter case
    apart, in the code or in the target. *)
Definition matches (searchQuery : string) (link : Link.t) : bool :=
  includes (toLowerCase (Link.code link)) (toLowerCase searchQuery)
  || includes (toLowerCase (Link.targetUrl link)) (toLowerCase searchQuery).

(** [filteredLinks] *)
Definition filteredLinks (links : list Link.t) (searchQuery : string)
  : list Link.t :=
  List.filter (matches searchQuery) links.

End Dashboard.

(** ** Concurrent creations

    A request to [ApiLinks.POST] awaits the look-up of the requested code,
    or the look-ups of the candidates it draws, and then the insertion.  As
    for the resolutions, a query is one step on the store and the queries of
    requests in flight interleave. *)

Module ConcurrentCreate.

Inductive Task :=
| Start (body : Body) (env : Env)
    (* before the first query *)
| Drawing (targetUrl : string) (env : Env) (attempts pos : nat)
    (* in the loop, before the test [attempts < maxAttempts] *)
| Inserting (targetUrl code : string) (env : Env)
    (* [code] was found free, before [create] *)
| Done (r : Response).

(** One turn of the loop of [POST], up to its query.  When the test of the
    [while] fails, [attempts >= maxAttempts] holds and the request ends. *)
Definition draw (targetUrl : string) (env : Env) (attempts pos : nat)
    (st : Store) : Task * Store :=
  if (attempts <? ApiLinks.maxAttempts)%nat then
    let '(candidate, pos') := generateRandomCode (random env) pos in
    match prisma.findUnique candidate st with
    | (Ok None, st') => (Inserting targetUrl candidate env, st')
    | (Ok (Some _), st') => (Drawing targetUrl env (S attempts) pos', st')
    | (Throw _, st') =>
        (Done (NextResponse_json (ErrorJson "Failed to create link") 500), st')
    end
  else
    (Done (NextResponse_json
             (ErrorJson "Failed to generate unique code. Please try again.")
             500), st).

(** The next query of a task, with the continuation of [ApiLinks.POST]:
    the checks that precede a query are made on the way to it. *)
Definition step (URL_new : string -> option Whatwg.URLRecord)
    (t : Task) (st : Store) : Task * Store :=
  match t with
  | Start body env =>
      let targetUrl := body_targetUrl body in
      let customCode := body_code body in
      if negb (Js.truthy_field targetUrl) then
        (Done (NextResponse_json (ErrorJson "Target URL is required") 400), st)
      else
        let targetUrl := default "" targetUrl in
        if negb (ApiLinks.isValidUrl URL_new targetUrl) then
          (Done (NextResponse_json (ErrorJson "Invalid URL format") 400), st)
        else if Js.truthy_field customCode then
          let customCode := default "" customCode in
          if negb (isValidCode customCode) then
            (Done (NextResponse_json
                     (ErrorJson "Custom code must be 6-8 alphanumeric characters")
                     400), st)
          else
            match prisma.findUnique customCode st with
            | (Ok (Some _), st') =>
                (Done (NextResponse_json
                         (ErrorJson "This short code is already taken") 409), st')
            | (Ok None, st') => (Inserting targetUrl customCode env, st')
            | (Throw _, st') =>
                (Done (NextResponse_json (ErrorJson "Failed to create link") 500),
                 st')
            end
        else draw targetUrl env 0 0 st
  | Drawing targetUrl env attempts pos => draw targetUrl env attempts pos st
  | Inserting targetUrl code env =>
      match prisma.create code targetUrl (cuid env) (stamp env) st with
      | (Ok link, st') => (Done (NextResponse_json (LinkJson link) 201), st')
      | (Throw _, st') =>
          (Done (NextResponse_json (ErrorJson "Failed to create link") 500), st')
      end
  | Done r => (Done r, st)
  end.

(** One scheduling decision: task [i] performs its next query. *)
Definition schedule (URL_new : string -> option Whatwg.URLRecord)
    (cfg : list Task * Store) (i : nat) : list Task * Store :=
  match fst cfg !! i with
  | Some t =>
      let '(t', st') := step URL_new t (snd cfg) in
      (<[i := t']> (fst cfg), st')
  | None => cfg
  end.

Definition run (URL_new : string -> option Whatwg.URLRecord)
    (sched : list nat) (cfg : list Task * Store) : list Task * Store :=
  fold_left (schedule URL_new) sched cfg.

(** A task on its own, [n] queries on. *)
Fixpoint alone (URL_new : string -> option Whatwg.URLRecord) (n : nat)
    (cfg : Task * Store) : Task * Store :=
  match n with
  | O => cfg
  | S n' => alone URL_new n' (step URL_new (fst cfg) (snd cfg))
  end.

(** The code of the Link a task has created, if it has. *)
Definition winner_code (t : Task) : option string :=
  match t with
  | Done (NextResponse_json (LinkJson link) 201) => Some (Link.code link)
  | _ => None
  end.

(** The codes of the Links created so far, in the order of the tasks. *)
Definition winner_codes (ts : list Task) : list string := omap winner_code ts.

Definition completed (t : Task) : Prop := exists r, t = Done r.

(** A task has completed as a loser: with 409, or with the fallback of the
    [catch]. *)
Definition lost (t : Task) : Prop :=
  t = Done (NextResponse_json (ErrorJson "This short code is already taken") 409)
  \/ t = Done (NextResponse_json (ErrorJson "Failed to create link") 500).

(** The requests as they arrive: valid targets, all with the same requested
    code. *)
Definition arrivals (code : string) (reqs : list (string * Env)) : list Task :=
  map (fun r => Start (mkBody (Some (fst r)) (Some code)) (snd r)) reqs.

End ConcurrentCreate.

(** ** Counting the redirects of a sequence of requests *)

(** The request is a resolve of [code] and its response is the redirect. *)
Definition is_hit (code : string) (c : Registry.Call) (r : Response) : nat :=
  match c, r with
  | Registry.Resolve c' _, NextResponse_redirect _ 302 =>
      if decide (c' = code) then 1 else 0
  | _, _ => 0
  end.

Fixpoint hits (code : string) (cs : list Registry.Call) (rs : list Response)
  : nat :=
  match cs, rs with
  | c :: cs', r :: rs' => is_hit code c r + hits code cs' rs'
  | _, _ => 0
  end.

(** The requests whose handlers are in [app/api/links/route.ts] and
    [app/[code]/route.ts]. *)
Definition source_call (c : Registry.Call) : Prop :=
  match c with
  | Registry.Create _ _ | Registry.Resolve _ _ | Registry.List => True
  | Registry.Get _ | Registry.Delete _ => False
  end.

(** The value of [clicks] under a code, 0 when no Link has the code. *)
Definition clicks_of (m : gmap string Link.t) (code : string) : Z :=
  match m !! code with
  | Some link => Link.clicks link
  | None => 0
  end.

(** A row whose counter and last click agree: [clicks] is not negative, and
    [lastClicked] is null exactly when [clicks] is 0. *)
Definition consistent_row (link : Link.t) : Prop :=
  0 <= Link.clicks link /\
  (Link.lastClicked link = None <-> Link.clicks link = 0).

Definition consistent_rows (m : gmap string Link.t) : Prop :=
  forall k link, m !! k = Some link -> consistent_row link.

(** The six draws of a generated code, from position [pos]. *)
Definition draws (rnd : Random) (pos : nat) : list nat :=
  map rnd (seq pos 6).

Definition has_colon (s : string) : Prop :=
  In ":"%char (list_ascii_of_string s).

(** The invariant of the interleavings of creates, from the store [st0]:
    rows are only added; the codes of the Links created so far are pairwise
    different and were free in [st0]; every Link created is stored under its
    code as it was answered. *)
Definition uncontended (st0 : Store) (cfg : list ConcurrentCreate.Task * Store)
  : Prop :=
  (forall k link, table st0 !! k = Some link -> table (snd cfg) !! k = Some link) /\
  NoDup (ConcurrentCreate.winner_codes (fst cfg)) /\
  (forall i link,
     fst cfg !! i
     = Some (ConcurrentCreate.Done (NextResponse_json (LinkJson link) 201)) ->
     table st0 !! Link.code link = None /\
     table (snd cfg) !! Link.code link = Some link).

(** A task of a contest for [code]: a request with a valid target and
    [code] as the requested code, at any of its stages. *)
Definition contender (URL_new : string -> option Whatwg.URLRecord)
    (code : string) (t : ConcurrentCreate.Task) : Prop :=
  (exists targetUrl env,
     t = ConcurrentCreate.Start (mkBody (Some targetUrl) (Some code)) env /\
     valid_target URL_new (Some targetUrl) = true)
  \/ (exists targetUrl env, t = ConcurrentCreate.Inserting targetUrl code env)
  \/ ConcurrentCreate.winner_code t = Some code
  \/ ConcurrentCreate.lost t.

(** The invariant of a contest: as long as [code] is free no task has
    completed; once it is taken exactly one task has created its Link. *)
Definition contested (URL_new : string -> option Whatwg.URLRecord)
    (code : string) (cfg : list ConcurrentCreate.Task * Store) : Prop :=
  Forall (contender URL_new code) (fst cfg) /\
  ((table (snd cfg) !! code = None /\
    Forall (fun t => ~ ConcurrentCreate.completed t) (fst cfg))
   \/
   (is_Some (table (snd cfg) !! code) /\
    ConcurrentCreate.winner_codes (fst cfg) = [code])).

(** The string has only characters of the ASCII range, on which
    [Dashboard.toLowerCase] is [toLowerCase]. *)
Definition ascii_only (s : string) : Prop :=
  Forall (fun c => (nat_of_ascii c < 128)%nat) (list_ascii_of_string s).

(** * Properties *)

(** ** The format of codes *)

Lemma append_cons (c : ascii) (s t : string) :
  String c s ++ t = String c (s ++ t).
Proof. reflexivity. Qed.

Lemma append_empty_r (s : string) : s ++ "" = s.
Proof.
  induction s as [|c s IH]; [reflexivity|].
  now rewrite append_cons, IH.
Qed.

Lemma length_append (s t : string) :
  String.length (s ++ t) = (String.length s + String.length t)%nat.
Proof.
  induction s as [|c s IH]; [reflexivity|].
  rewrite append_cons. simpl. now rewrite IH.
Qed.

Lemma list_ascii_append (s t : string) :
  list_ascii_of_string (s ++ t)
  = (list_ascii_of_string s ++ list_ascii_of_string t)%list.
Proof.
  induction s as [|c s IH]; [reflexivity|].
  rewrite append_cons. simpl. now rewrite IH.
Qed.

Lemma match_class_upto_spec cls hi s n rest :
  Js.match_class_upto cls hi s = (n, rest) ->
  (n <= hi)%nat /\
  exists pre, s = pre ++ rest /\ String.length pre = n /\
    Forall (fun c => Js.in_class cls c = true) (list_ascii_of_string pre) /\
    (n < hi -> match rest with
               | String c _ => Js.in_class cls c = false
               | EmptyString => True
               end)%nat.
Proof.
  revert s n rest. induction hi as [|hi IH]; intros s n rest H.
  - simpl in H. destruct s; inversion H; subst; split; try lia;
      exists ""; repeat split; auto; lia.
  - destruct s as [|c s]; simpl in H.
    + inversion H; subst. split; [lia|]. exists ""; repeat split; auto.
    + destruct (Js.in_class cls c) eqn:Hc.
      * destruct (Js.match_class_upto cls hi s) as [m r] eqn:Hm.
        inversion H; subst. destruct (IH _ _ _ Hm) as (Hle & pre & -> & Hlen & Hall & Hnext).
        split; [lia|]. exists (String c pre). simpl. repeat split; auto.
        intros Hlt. apply Hnext. lia.
      * inversion H; subst. split; [lia|]. exists "". simpl. repeat split; auto.
Qed.

Lemma match_class_upto_all cls hi s :
  (String.length s <= hi)%nat ->
  Forall (fun c => Js.in_class cls c = true) (list_ascii_of_string s) ->
  Js.match_class_upto cls hi s = (String.length s, "").
Proof.
  revert s. induction hi as [|hi IH]; intros s Hlen Hall.
  - destruct s; simpl in *; [reflexivity | lia].
  - destruct s as [|c s]; simpl in *; [reflexivity|].
    inversion Hall; subst. rewrite H1, IH; auto. lia.
Qed.

(** The regular expression accepts exactly the strings of 6 to 8
    characters that are all letters or digits. *)
Lemma isValidCode_spec (code : string) :
  isValidCode code = true <->
  (6 <= String.length code <= 8)%nat /\
  Forall (fun c => is_alnum c = true) (list_ascii_of_string code).
Proof.
  unfold isValidCode, Js.test_anchored_rep, is_alnum. split.
  - destruct (Js.match_class_upto Js.alnum 8 code) as [n rest] eqn:Hm.
    intros H. apply andb_true_iff in H as [Hn Hrest].
    apply Nat.leb_le in Hn.
    destruct (match_class_upto_spec _ _ _ _ _ Hm) as (Hle & pre & -> & Hlen & Hall & _).
    destruct rest; [|discriminate].
    rewrite append_empty_r. subst n. split; [lia | exact Hall].
  - intros [Hlen Hall]. rewrite match_class_upto_all; auto; [|lia].
    apply andb_true_iff. split; [apply Nat.leb_le; lia | reflexivity].
Qed.

(** ** Generated codes *)

Lemma charAt_chars (i : nat) :
  (i < String.length chars)%nat ->
  exists c, Js.charAt chars i = String c "" /\ is_alnum c = true.
Proof.
  intros Hi.
  do 62 (destruct i as [|i]; [eexists; split; reflexivity|]).
  simpl in Hi. lia.
Qed.

Lemma generate_from_spec (rnd : Random) (n pos : nat) (code : string) :
  in_range_draws rnd ->
  exists suffix,
    generate_from rnd n pos code = code ++ suffix /\
    String.length suffix = n /\
    Forall (fun c => is_alnum c = true) (list_ascii_of_string suffix).
Proof.
  intros Hr. revert pos code. induction n as [|n IH]; intros pos code.
  - exists "". simpl. rewrite append_empty_r. auto.
  - simpl. destruct (charAt_chars (rnd pos) (Hr pos)) as (c & -> & Hc).
    destruct (IH (S pos) (code ++ String c "")) as (suf & -> & Hlen & Hall).
    exists (String c suf). split; [|split].
    + clear. induction code as [|d code IH]; [reflexivity|].
      rewrite !append_cons. now rewrite IH.
    + simpl. now rewrite Hlen.
    + simpl. constructor; assumption.
Qed.

(** With draws in range, a generated code has six characters of the
    alphabet, so it has the format of [isValidCode]. *)
Lemma generateRandomCode_format (rnd : Random) (pos : nat) :
  in_range_draws rnd ->
  let code := fst (generateRandomCode rnd pos) in
  String.length code = 6%nat /\
  Forall (fun c => is_alnum c = true) (list_ascii_of_string code) /\
  isValidCode code = true.
Proof.
  intros Hr code. subst code. unfold generateRandomCode. cbn [fst].
  destruct (generate_from_spec rnd 6 pos "" Hr) as (suf & Heq & Hlen & Hall).
  change ("" ++ suf) with suf in Heq. rewrite Heq.
  split; [exact Hlen|]. split; [exact Hall|].
  apply isValidCode_spec. split; [lia | exact Hall].
Qed.

Lemma generateRandomCode_pos (rnd : Random) (pos : nat) :
  snd (generateRandomCode rnd pos) = (pos + 6)%nat.
Proof. reflexivity. Qed.

(** ** The generation loop *)

Lemma first_free_Some m rnd n a j :
  first_free m rnd n a = Some j ->
  (a <= j < a + n)%nat /\ m !! candidate rnd j = None /\
  forall k, (a <= k < j)%nat -> is_Some (m !! candidate rnd k).
Proof.
  revert a. induction n as [|n IH]; intros a H; [discriminate|].
  simpl in H. destruct (m !! candidate rnd a) eqn:Ha.
  - destruct (IH _ H) as (Hj & Hfree & Hbefore).
    split; [lia|]. split; [exact Hfree|].
    intros k Hk. destruct (decide (k = a)) as [->|Hne].
    + rewrite Ha. eauto.
    + apply Hbefore. lia.
  - inversion H; subst. split; [lia|]. split; [exact Ha|]. intros k Hk. lia.
Qed.

Lemma first_free_None m rnd n a :
  first_free m rnd n a = None <->
  forall k, (a <= k < a + n)%nat -> is_Some (m !! candidate rnd k).
Proof.
  revert a. induction n as [|n IH]; intros a; simpl.
  - split; [intros _ k Hk; lia | reflexivity].
  - destruct (m !! candidate rnd a) eqn:Ha.
    + rewrite IH. split; intros H k Hk.
      * destruct (decide (k = a)) as [->|Hne]; [rewrite Ha; eauto | apply H; lia].
      * apply H. lia.
    + split; [discriminate|]. intros H.
      destruct (H a ltac:(lia)) as [x Hx]. congruence.
Qed.

Lemma store_eta (st : Store) : mkStore (table st) (trace st ++ []) = st.
Proof. destruct st. simpl. now rewrite app_nil_r. Qed.

(** The loop with at least [maxAttempts - attempts] units of fuel: it stops
    at the first free candidate, or after the candidate number
    [maxAttempts - 1] collided.  The table is left as it was. *)
Lemma generate_loop_spec (rnd : Random) (n : nat) :
  forall (a fuel : nat) (code : option string) (st : Store),
    (a + n = ApiLinks.maxAttempts)%nat -> (n <= fuel)%nat ->
    ApiLinks.generate_loop rnd fuel a (6 * a) code st =
    match first_free (table st) rnd n a with
    | Some j =>
        (Ok (j, Some (candidate rnd j)),
         mkStore (table st) (trace st ++ lookups rnd a (S j - a)))
    | None =>
        (Ok (ApiLinks.maxAttempts,
             match n with O => code | S _ => Some (candidate rnd 9) end),
         mkStore (table st) (trace st ++ lookups rnd a n))
    end.
Proof.
  unfold ApiLinks.maxAttempts.
  induction n as [|n IH]; intros a fuel code st Ha Hfuel.
  - assert (a = 10%nat) as -> by lia. simpl first_free. unfold lookups. simpl map.
    rewrite store_eta. destruct fuel; reflexivity.
  - destruct fuel as [|fuel]; [lia|].
    cbn [ApiLinks.generate_loop]. unfold ApiLinks.maxAttempts.
    assert ((a <? 10)%nat = true) as -> by (apply Nat.ltb_lt; lia).
    unfold generateRandomCode at 1.
    change (generate_from rnd 6 (6 * a) "") with (candidate rnd a).
    cbn [first_free]. unfold bind, prisma.findUnique.
    destruct (table st !! candidate rnd a) eqn:Hlook.
    + replace (6 * a + 6)%nat with (6 * S a)%nat by lia.
      rewrite IH by (simpl; lia). cbn [issue table trace].
      destruct (first_free (table st) rnd n (S a)) as [j|] eqn:Hff.
      * apply first_free_Some in Hff as (Hj & _ & _).
        replace (S j - a)%nat with (S (S j - S a)) by lia.
        unfold lookups. cbn [seq map]. now rewrite <- app_assoc.
      * unfold lookups. cbn [seq map]. rewrite <- app_assoc. cbn [app].
        destruct n; [|reflexivity].
        assert (a = 9%nat) as -> by lia. reflexivity.
    + unfold ret. replace (S a - a)%nat with 1%nat by lia. reflexivity.
Qed.

(** ** The outcomes of [POST] *)

Section Create.

Variable URL_new : string -> option Whatwg.URLRecord.

Lemma POST_invalid_target body env st :
  valid_target URL_new (body_targetUrl body) = false ->
  exists msg,
    ApiLinks.POST URL_new body env st
    = (NextResponse_json (ErrorJson msg) 400, st) /\
    (msg = "Target URL is required" \/ msg = "Invalid URL format").
Proof.
  unfold valid_target, ApiLinks.POST, try_catch. intros H.
  destruct (Js.truthy_field (body_targetUrl body)); simpl in H |- *.
  - rewrite H. simpl. eauto.
  - eauto.
Qed.

Lemma POST_valid_target body env st :
  valid_target URL_new (body_targetUrl body) = true ->
  ApiLinks.POST URL_new body env st =
  try_catch
    (r <- ApiLinks.determine_code (body_code body) env ;;
     match r with
     | inl response => ret response
     | inr None => throw ValidationError
     | inr (Some code) =>
         link <- prisma.create code (default "" (body_targetUrl body))
                   (cuid env) (stamp env) ;;
         ret (NextResponse_json (LinkJson link) 201)
     end)
    (NextResponse_json (ErrorJson "Failed to create link") 500) st.
Proof.
  unfold valid_target, ApiLinks.POST. intros H.
  apply andb_true_iff in H as [-> ->]. reflexivity.
Qed.

Lemma POST_custom_invalid body env st code :
  valid_target URL_new (body_targetUrl body) = true ->
  body_code body = Some code -> code <> "" -> isValidCode code = false ->
  ApiLinks.POST URL_new body env st =
  (NextResponse_json
     (ErrorJson "Custom code must be 6-8 alphanumeric characters") 400, st).
Proof.
  intros Hv Hc Hne Hbad. rewrite POST_valid_target by exact Hv.
  unfold ApiLinks.determine_code, try_catch, bind. rewrite Hc.
  destruct code; [congruence|]. cbn [Js.truthy_field Js.truthy default from_option id].
  rewrite Hbad. reflexivity.
Qed.

Lemma POST_custom_taken body env st code link :
  valid_target URL_new (body_targetUrl body) = true ->
  body_code body = Some code -> isValidCode code = true ->
  table st !! code = Some link ->
  ApiLinks.POST URL_new body env st =
  (NextResponse_json (ErrorJson "This short code is already taken") 409,
   issue (QFindUnique code) st).
Proof.
  intros Hv Hc Hok Hlook. rewrite POST_valid_target by exact Hv.
  unfold ApiLinks.determine_code, try_catch, bind. rewrite Hc.
  destruct code; [discriminate|]. cbn [Js.truthy_field Js.truthy default from_option id].
  rewrite Hok. cbn [negb]. unfold prisma.findUnique. rewrite Hlook. reflexivity.
Qed.

Lemma POST_custom_free body env st code targetUrl :
  valid_target URL_new (body_targetUrl body) = true ->
  body_targetUrl body = Some targetUrl ->
  body_code body = Some code -> isValidCode code = true ->
  table st !! code = None ->
  ApiLinks.POST URL_new body env st =
  (NextResponse_json (LinkJson (new_link env code targetUrl)) 201,
   mkStore (<[code := new_link env code targetUrl]> (table st))
     (trace st ++ [QFindUnique code; QCreate code])).
Proof.
  intros Hv Ht Hc Hok Hlook. rewrite POST_valid_target by exact Hv.
  unfold ApiLinks.determine_code, try_catch, bind. rewrite Hc, Ht.
  destruct code; [discriminate|]. cbn [Js.truthy_field Js.truthy default from_option id].
  rewrite Hok. cbn [negb]. unfold prisma.findUnique. rewrite Hlook.
  unfold ret, prisma.create, issue. cbn [table trace]. rewrite Hlook.
  unfold new_link. now rewrite <- app_assoc.
Qed.

Lemma POST_generated body env st targetUrl :
  valid_target URL_new (body_targetUrl body) = true ->
  body_targetUrl body = Some targetUrl ->
  Js.truthy_field (body_code body) = false ->
  ApiLinks.POST URL_new body env st =
  match first_free (table st) (random env) ApiLinks.maxAttempts 0 with
  | Some j =>
      let code := candidate (random env) j in
      (NextResponse_json (LinkJson (new_link env code targetUrl)) 201,
       mkStore (<[code := new_link env code targetUrl]> (table st))
         (trace st ++ lookups (random env) 0 (S j) ++ [QCreate code]))
  | None =>
      (NextResponse_json
         (ErrorJson "Failed to generate unique code. Please try again.") 500,
       mkStore (table st)
         (trace st ++ lookups (random env) 0 ApiLinks.maxAttempts))
  end.
Proof.
  intros Hv Ht Hc. rewrite POST_valid_target by exact Hv.
  unfold ApiLinks.determine_code, try_catch. rewrite Hc, Ht.
  unfold bind at 1. unfold bind at 1.
  pose proof (generate_loop_spec (random env) ApiLinks.maxAttempts 0
                ApiLinks.maxAttempts (body_code body) st eq_refl (le_n _)) as Hloop.
  change (6 * 0)%nat with 0%nat in Hloop. rewrite Hloop. clear Hloop.
  destruct (first_free (table st) (random env) ApiLinks.maxAttempts 0)
    as [j|] eqn:Hff.
  - apply first_free_Some in Hff as (Hj & Hfree & _).
    assert ((ApiLinks.maxAttempts <=? j)%nat = false) as ->
      by (apply Nat.leb_gt; lia).
    unfold ret, bind, prisma.create, issue.
    cbn [table trace default from_option id].
    rewrite Hfree. rewrite Nat.sub_0_r. unfold new_link.
    now rewrite <- app_assoc.
  - reflexivity.
Qed.

End Create.

Section CreateOutcomes.

Variable URL_new : string -> option Whatwg.URLRecord.

Lemma valid_target_Some targetUrl :
  valid_target URL_new targetUrl = true ->
  exists s, targetUrl = Some s /\ s <> "".
Proof.
  unfold valid_target. intros H. apply andb_true_iff in H as [H _].
  destruct targetUrl as [[|c s]|]; try discriminate.
  eexists; split; [reflexivity | discriminate].
Qed.

Lemma truthy_field_cases (v : option string) :
  (exists s, v = Some s /\ s <> "" /\ Js.truthy_field v = true) \/
  Js.truthy_field v = false.
Proof.
  destruct v as [[|c s]|]; simpl; auto. left.
  eexists; split; [reflexivity | split; [discriminate | reflexivity]].
Qed.

Lemma POST_outcome body env st :
  valid_target URL_new (body_targetUrl body) = true ->
  Outcome body env st
    (fst (ApiLinks.POST URL_new body env st))
    (snd (ApiLinks.POST URL_new body env st)).
Proof.
  intros Hv. destruct (valid_target_Some _ Hv) as (targetUrl & Ht & _).
  destruct (truthy_field_cases (body_code body)) as [(code & Hc & Hne & _)|Hf].
  - destruct (isValidCode code) eqn:Hok.
    + destruct (table st !! code) as [link|] eqn:Hlook.
      * rewrite (POST_custom_taken _ _ _ _ _ _ Hv Hc Hok Hlook).
        eapply Conflict; eauto.
      * rewrite (POST_custom_free _ _ _ _ _ _ Hv Ht Hc Hok Hlook).
        eapply CreatedRequested; eauto.
    + rewrite (POST_custom_invalid _ _ _ _ _ Hv Hc Hne Hok).
      eapply RejectedCode; eauto.
  - rewrite (POST_generated _ _ _ _ _ Hv Ht Hf).
    destruct (first_free (table st) (random env) ApiLinks.maxAttempts 0)
      as [j|] eqn:Hff.
    + eapply CreatedGenerated; eauto.
    + eapply Exhausted; eauto.
Qed.

End CreateOutcomes.

(** * The statements of the specification *)

(** ** Create with a requested code *)

(** C4.  For a valid target and a requested code of the right format: two
    successive creates with that code.  The second one always fails with
    CodeConflict and leaves the table as it was.  When a Link holds the code
    beforehand, so does the first one, and the only query it issues is the
    look-up of the requested code (no candidate is drawn, nothing is
    inserted).  When the code is free, the first one succeeds with that very
    code: one success and one CodeConflict. *)
Theorem C4_requested_code_conflict
    (URL_new : string -> option Whatwg.URLRecord)
    (targetUrl targetUrl2 code : string) (env env2 : Env) (st : Store) :
  valid_target URL_new (Some targetUrl) = true ->
  valid_target URL_new (Some targetUrl2) = true ->
  isValidCode code = true ->
  let first := ApiLinks.POST URL_new (mkBody (Some targetUrl) (Some code)) env st in
  let second :=
    ApiLinks.POST URL_new (mkBody (Some targetUrl2) (Some code)) env2 (snd first) in
  (is_Some (table st !! code) ->
     error_kind (fst first) = Some CodeConflict /\
     table (snd first) = table st /\
     trace (snd first) = (trace st ++ [QFindUnique code])%list) /\
  (table st !! code = None ->
     fst first = NextResponse_json (LinkJson (new_link env code targetUrl)) 201 /\
     table (snd first) = <[code := new_link env code targetUrl]> (table st)) /\
  error_kind (fst second) = Some CodeConflict /\
  table (snd second) = table (snd first) /\
  trace (snd second) = (trace (snd first) ++ [QFindUnique code])%list.
Proof.
  intros Hv1 Hv2 Hok first second.
  assert (Hsecond : forall link, table (snd first) !! code = Some link ->
            error_kind (fst second) = Some CodeConflict /\
            table (snd second) = table (snd first) /\
            trace (snd second) = (trace (snd first) ++ [QFindUnique code])%list).
  { intros link Hlook. subst second.
    rewrite (POST_custom_taken URL_new (mkBody (Some targetUrl2) (Some code))
               env2 (snd first) code link Hv2 eq_refl Hok Hlook).
    repeat split. }
  destruct (table st !! code) as [link|] eqn:Hlook.
  - assert (Hfirst : first = (NextResponse_json
                (ErrorJson "This short code is already taken") 409,
              issue (QFindUnique code) st)).
    { subst first.
      exact (POST_custom_taken URL_new (mkBody (Some targetUrl) (Some code))
               env st code link Hv1 eq_refl Hok Hlook). }
    split; [|split].
    + intros _. rewrite Hfirst. repeat split.
    + discriminate.
    + apply (Hsecond link). rewrite Hfirst. exact Hlook.
  - assert (Hfirst : first =
              (NextResponse_json (LinkJson (new_link env code targetUrl)) 201,
               mkStore (<[code := new_link env code targetUrl]> (table st))
                 (trace st ++ [QFindUnique code; QCreate code]))).
    { subst first.
      exact (POST_custom_free URL_new (mkBody (Some targetUrl) (Some code))
               env st code targetUrl Hv1 eq_refl eq_refl Hok Hlook). }
    split; [|split].
    + intros [x Hx]. discriminate.
    + intros _. rewrite Hfirst. split; reflexivity.
    + apply (Hsecond (new_link env code targetUrl)). rewrite Hfirst.
      cbn [snd table]. apply lookup_insert_eq.
Qed.

Lemma C4_requested_code_conflict_witness :
  let env := mkEnv (fun k => k) 1700000000000 1700000000000 "ckv1" in
  let env2 := mkEnv (fun k => k) 1700000000500 1700000000500 "ckv2" in
  let first :=
    ApiLinks.POST Whatwg.parse
      (mkBody (Some "https://example.com") (Some "docs2024")) env (mkStore ∅ []) in
  let second :=
    ApiLinks.POST Whatwg.parse
      (mkBody (Some "https://example.org/b") (Some "docs2024")) env2 (snd first) in
  fst first
  = NextResponse_json
      (LinkJson (new_link env "docs2024" "https://example.com")) 201 /\
  error_kind (fst second) = Some CodeConflict /\
  table (snd second) = table (snd first).
Proof.
  intros env env2 first second.
  destruct (C4_requested_code_conflict Whatwg.parse
              "https://example.com" "https://example.org/b" "docs2024"
              env env2 (mkStore ∅ []) eq_refl eq_refl eq_refl)
    as (_ & Hfree & Hkind & Htable & _).
  destruct (Hfree eq_refl) as [Hfirst _].
  split; [exact Hfirst|]. split; [exact Hkind | exact Htable].
Defined.

(** C8, as stated, fails.  The empty string is a requested code that does
    not match the regular expression, and the create is not rejected with
    InvalidCode: it succeeds with a generated code. *)
Lemma C8_counterexample :
  isValidCode "" = false /\
  fst (ApiLinks.POST Whatwg.parse
         (mkBody (Some "https://example.com") (Some ""))
         (mkEnv (fun k => k) 1700000000000 1700000000000 "ckv1")
         (mkStore ∅ []))
  = NextResponse_json
      (LinkJson (Link.mk "ckv1" "ABCDEF" "https://example.com" 0 None
                   1700000000000 1700000000000)) 201.
Proof. split; vm_compute; reflexivity. Qed.

(** C8, amended.  For a valid target and a non-empty requested code, the
    create fails with InvalidCode exactly when the code does not match
    [^[A-Za-z0-9]{6,8}$], and in that case no query has been issued: the
    store, with its trace of queries, is the one before the request. *)
Theorem C8_invalid_code_rejected
    (URL_new : string -> option Whatwg.URLRecord)
    (targetUrl code : string) (env : Env) (st : Store) :
  valid_target URL_new (Some targetUrl) = true ->
  code <> "" ->
  let result := ApiLinks.POST URL_new (mkBody (Some targetUrl) (Some code)) env st in
  (error_kind (fst result) = Some InvalidCode <-> isValidCode code = false) /\
  (isValidCode code = false -> snd result = st).
Proof.
  intros Hv Hne result.
  pose proof (POST_outcome URL_new (mkBody (Some targetUrl) (Some code)) env st Hv)
    as Hout.
  fold result in Hout.
  destruct (isValidCode code) eqn:Hok.
  - split; [|discriminate]. split; [|discriminate].
    inversion Hout as [c Hc _ Hbad Hr Hs | c l Hc _ _ _ Hr Hs
                       | c t _ Hc _ _ _ Hr Hs | j t _ Hf _ Hr Hs | Hf _ Hr Hs];
      simpl in *; try discriminate; congruence.
  - assert (Hres : result =
              (NextResponse_json
                 (ErrorJson "Custom code must be 6-8 alphanumeric characters") 400,
               st)).
    { subst result.
      exact (POST_custom_invalid URL_new (mkBody (Some targetUrl) (Some code))
               env st code Hv eq_refl Hne Hok). }
    rewrite Hres. split; [split; reflexivity | reflexivity].
Qed.

Lemma C8_invalid_code_rejected_witness :
  let result :=
    ApiLinks.POST Whatwg.parse (mkBody (Some "https://example.com") (Some "ab"))
      (mkEnv (fun k => k) 1700000000000 1700000000000 "ckv1") (mkStore ∅ []) in
  (error_kind (fst result) = Some InvalidCode <-> isValidCode "ab" = false) /\
  (isValidCode "ab" = false -> snd result = mkStore ∅ []).
Proof.
  apply (C8_invalid_code_rejected Whatwg.parse "https://example.com" "ab").
  - reflexivity.
  - discriminate.
Defined.

(** ** Create: the target *)

(** C6, as stated, fails.  [mailto:x] parses with a scheme and without a
    host, and the create is not rejected: it succeeds. *)
Lemma C6_counterexample :
  Whatwg.parse "mailto:x" = Some (Whatwg.mkURL "mailto" None) /\
  fst (ApiLinks.POST Whatwg.parse (mkBody (Some "mailto:x") None)
         (mkEnv (fun k => k) 1700000000000 1700000000000 "ckv1")
         (mkStore ∅ []))
  = NextResponse_json
      (LinkJson (Link.mk "ckv1" "ABCDEF" "mailto:x" 0 None
                   1700000000000 1700000000000)) 201.
Proof. split; vm_compute; reflexivity. Qed.

(** C6, amended.  A create fails with InvalidTarget exactly when the target
    is missing or empty or the URL constructor of the platform rejects it
    (whatever the requested code), and in that case no query has been
    issued: the store, with its trace of queries, is the one before the
    request. *)
Theorem C6_invalid_target_rejected
    (URL_new : string -> option Whatwg.URLRecord)
    (body : Body) (env : Env) (st : Store) :
  let result := ApiLinks.POST URL_new body env st in
  (error_kind (fst result) = Some InvalidTarget
   <-> valid_target URL_new (body_targetUrl body) = false) /\
  (valid_target URL_new (body_targetUrl body) = false -> snd result = st).
Proof.
  intros result.
  destruct (valid_target URL_new (body_targetUrl body)) eqn:Hv.
  - split; [|discriminate]. split; [|discriminate].
    pose proof (POST_outcome URL_new body env st Hv) as Hout. fold result in Hout.
    inversion Hout as [c Hc _ Hbad Hr Hs | c l Hc _ _ _ Hr Hs
                       | c t _ Hc _ _ _ Hr Hs | j t _ Hf _ Hr Hs | Hf _ Hr Hs];
      simpl in *; discriminate.
  - destruct (POST_invalid_target URL_new body env st Hv) as (msg & Hres & Hmsg).
    subst result. rewrite Hres. split; [|reflexivity].
    assert (Hkind : error_kind (NextResponse_json (ErrorJson msg) 400)
                    = Some InvalidTarget)
      by (destruct Hmsg as [-> | ->]; reflexivity).
    split; intros _; [reflexivity | exact Hkind].
Qed.

(** ** Create with an empty requested code *)

(** The first free candidate is the one that is free while those before it
    are taken. *)
Lemma first_free_is m rnd n j :
  (j < n)%nat ->
  m !! candidate rnd j = None ->
  (forall k, (k < j)%nat -> is_Some (m !! candidate rnd k)) ->
  first_free m rnd n 0 = Some j.
Proof.
  intros Hj Hfree Hbefore.
  destruct (first_free m rnd n 0) as [j'|] eqn:Hff.
  - apply first_free_Some in Hff as (Hj' & Hfree' & Hbefore').
    destruct (Nat.lt_trichotomy j j') as [Hlt | [-> | Hgt]]; [|reflexivity|].
    + destruct (Hbefore' j ltac:(lia)) as [x Hx]. congruence.
    + destruct (Hbefore j' Hgt) as [x Hx]. congruence.
  - destruct (proj1 (first_free_None m rnd n 0) Hff j ltac:(lia)) as [x Hx].
    congruence.
Qed.

(** C10.  For a valid target, a create whose requested code is the empty
    string behaves as the create without a requested code: same response,
    same store, same queries.  It does not fail with InvalidCode, and it
    generates the code: the candidates are looked up in the order they are
    drawn, and when the [j]-th of the ten is the first that no stored Link
    has, the create answers 201 with a new Link under that candidate, which
    has six characters (with draws in range), after the lookups of the
    candidates [0 .. j] and the insertion; the table afterwards is the table
    before with that Link added, and the empty string is neither looked up
    nor stored.  Only when the ten candidates are all taken does the create
    fail, with ExhaustedCodeSpace, after ten lookups and with the table as
    it was. *)
Theorem C10_empty_code_is_no_code
    (URL_new : string -> option Whatwg.URLRecord)
    (targetUrl : string) (env : Env) (st : Store) :
  valid_target URL_new (Some targetUrl) = true ->
  in_range_draws (random env) ->
  let rnd := random env in
  let result := ApiLinks.POST URL_new (mkBody (Some targetUrl) (Some "")) env st in
  result = ApiLinks.POST URL_new (mkBody (Some targetUrl) None) env st /\
  error_kind (fst result) <> Some InvalidCode /\
  (forall link status,
     fst result = NextResponse_json (LinkJson link) status ->
     String.length (Link.code link) = 6%nat) /\
  (forall j, (j < 10)%nat ->
     table st !! candidate rnd j = None ->
     (forall k, (k < j)%nat -> is_Some (table st !! candidate rnd k)) ->
     String.length (candidate rnd j) = 6%nat /\
     result =
     (NextResponse_json (LinkJson (new_link env (candidate rnd j) targetUrl)) 201,
      mkStore (<[candidate rnd j := new_link env (candidate rnd j) targetUrl]>
                 (table st))
        (trace st ++ lookups rnd 0 (S j) ++ [QCreate (candidate rnd j)]))) /\
  ((forall k, (k < 10)%nat -> is_Some (table st !! candidate rnd k)) ->
   error_kind (fst result) = Some ExhaustedCodeSpace /\
   snd result = mkStore (table st) (trace st ++ lookups rnd 0 10)) /\
  table (snd result) !! "" = table st !! "" /\
  ~ In (QFindUnique "") (skipn (length (trace st)) (trace (snd result))) /\
  ~ In (QCreate "") (skipn (length (trace st)) (trace (snd result))).
Proof.
  intros Hv Hr rnd result. subst result.
  rewrite (POST_generated URL_new (mkBody (Some targetUrl) (Some "")) env st
             targetUrl Hv eq_refl eq_refl).
  rewrite (POST_generated URL_new (mkBody (Some targetUrl) None) env st
             targetUrl Hv eq_refl eq_refl).
  fold rnd. unfold ApiLinks.maxAttempts.
  assert (Hlen : forall k, String.length (candidate rnd k) = 6%nat).
  { intros k. apply (generateRandomCode_format rnd (6 * k) Hr). }
  assert (Hne : forall k, candidate rnd k <> "").
  { intros k Hk. specialize (Hlen k). rewrite Hk in Hlen. discriminate. }
  assert (Hlookups : forall a n, ~ In (QFindUnique "") (lookups rnd a n)).
  { intros a n Hin. unfold lookups in Hin. apply in_map_iff in Hin
      as (k & Hk & _). inversion Hk as [Hk']. exact (Hne k Hk'). }
  assert (Hcreates : forall a n, ~ In (QCreate "") (lookups rnd a n)).
  { intros a n Hin. unfold lookups in Hin. apply in_map_iff in Hin
      as (k & Hk & _). discriminate. }
  split; [reflexivity|].
  destruct (first_free (table st) rnd 10 0) as [j|] eqn:Hff.
  - pose proof (first_free_Some _ _ _ _ _ Hff) as (Hj & Hfree & Hbefore).
    cbv zeta. cbn [fst snd table trace error_kind].
    split; [discriminate|].
    split; [intros link status H; inversion H; subst; apply Hlen|].
    split; [|split; [|split; [|split]]].
    + intros j' Hj' Hfree' Hbefore'.
      pose proof (first_free_is _ _ 10 j' Hj' Hfree' Hbefore') as Hff'.
      rewrite Hff in Hff'. inversion Hff'; subst j'.
      split; [apply Hlen | reflexivity].
    + intros Hall. destruct (Hall j ltac:(lia)) as [x Hx]. congruence.
    + rewrite lookup_insert_ne; [reflexivity | apply Hne].
    + rewrite skipn_app, skipn_all, Nat.sub_diag. cbn [skipn app].
      intros Hin. apply in_app_or in Hin as [Hin | [Hin | []]];
        [exact (Hlookups _ _ Hin) | discriminate].
    + rewrite skipn_app, skipn_all, Nat.sub_diag. cbn [skipn app].
      intros Hin. apply in_app_or in Hin as [Hin | [Hin | []]];
        [exact (Hcreates _ _ Hin) | inversion Hin as [Hk]; exact (Hne j Hk)].
  - pose proof (proj1 (first_free_None _ _ _ _) Hff) as Hall.
    cbn [fst snd table trace error_kind String.eqb].
    split; [discriminate|].
    split; [intros link status H; discriminate|].
    split; [|split; [|split; [|split]]].
    + intros j Hj Hfree _. destruct (Hall j ltac:(lia)) as [x Hx]. congruence.
    + intros _. split; reflexivity.
    + reflexivity.
    + rewrite skipn_app, skipn_all, Nat.sub_diag. cbn [skipn app].
      apply Hlookups.
    + rewrite skipn_app, skipn_all, Nat.sub_diag. cbn [skipn app].
      apply Hcreates.
Qed.

Lemma in_range_identity_mod : in_range_draws (fun k => k mod 62)%nat.
Proof. intros k. apply Nat.mod_upper_bound. discriminate. Qed.

Lemma C10_empty_code_is_no_code_witness :
  let env := mkEnv (fun k => k mod 62)%nat 1700000000000 1700000000000 "ckv1" in
  let st :=
    mkStore {[ "ABCDEF" := Link.mk "ckv0" "ABCDEF" "https://example.org" 3
                              (Some 1600000000000) 1500000000000 1600000000000 ]}
      [] in
  let result :=
    ApiLinks.POST Whatwg.parse (mkBody (Some "https://example.com") (Some ""))
      env st in
  result
  = ApiLinks.POST Whatwg.parse (mkBody (Some "https://example.com") None) env st /\
  error_kind (fst result) <> Some InvalidCode /\
  result =
  (NextResponse_json
     (LinkJson (new_link env "GHIJKL" "https://example.com")) 201,
   mkStore (<["GHIJKL" := new_link env "GHIJKL" "https://example.com"]> (table st))
     [QFindUnique "ABCDEF"; QFindUnique "GHIJKL"; QCreate "GHIJKL"]).
Proof.
  intros env st result.
  destruct (C10_empty_code_is_no_code Whatwg.parse "https://example.com" env st
              eq_refl in_range_identity_mod)
    as (Hsame & Hkind & _ & Hgenerated & _).
  split; [exact Hsame|]. split; [exact Hkind|].
  refine (proj2 (Hgenerated 1%nat _ _ _)).
  - lia.
  - vm_compute. reflexivity.
  - intros k Hk. assert (k = 0%nat) as -> by lia. vm_compute. eauto.
Defined.

(** ** Create without a requested code *)

(** C5.  For a valid target and no requested code, with draws in range: the
    create looks up [n] candidates, [1 <= n <= 10], one after the other and
    in the order they are drawn; every candidate has six characters of the
    alphabet; each candidate before the last one collided; the create fails
    with ExhaustedCodeSpace exactly when the ten candidates all collide, and
    then ten candidates were looked up and nothing was stored; otherwise the
    last candidate was free and is the code of the Link created. *)
Theorem C5_generation_bound
    (URL_new : string -> option Whatwg.URLRecord)
    (targetUrl : string) (env : Env) (st : Store) :
  valid_target URL_new (Some targetUrl) = true ->
  in_range_draws (random env) ->
  let rnd := random env in
  let result := ApiLinks.POST URL_new (mkBody (Some targetUrl) None) env st in
  let exhausted := error_kind (fst result) = Some ExhaustedCodeSpace in
  exists n : nat,
    (1 <= n <= 10)%nat /\
    (forall k, String.length (candidate rnd k) = 6%nat /\
               Forall (fun c => is_alnum c = true)
                 (list_ascii_of_string (candidate rnd k))) /\
    (forall k, (k < n - 1)%nat -> is_Some (table st !! candidate rnd k)) /\
    (exhausted <->
     forall k, (k < 10)%nat -> is_Some (table st !! candidate rnd k)) /\
    (exhausted ->
     n = 10%nat /\
     snd result = mkStore (table st) (trace st ++ lookups rnd 0 n)) /\
    (~ exhausted ->
     table st !! candidate rnd (n - 1) = None /\
     result =
     (NextResponse_json
        (LinkJson (new_link env (candidate rnd (n - 1)) targetUrl)) 201,
      mkStore (<[candidate rnd (n - 1)
                 := new_link env (candidate rnd (n - 1)) targetUrl]> (table st))
        (trace st ++ lookups rnd 0 n ++ [QCreate (candidate rnd (n - 1))]))).
Proof.
  intros Hv Hr rnd result exhausted. subst result exhausted.
  rewrite (POST_generated URL_new (mkBody (Some targetUrl) None) env st
             targetUrl Hv eq_refl eq_refl).
  fold rnd. unfold ApiLinks.maxAttempts.
  assert (Hformat : forall k, String.length (candidate rnd k) = 6%nat /\
            Forall (fun c => is_alnum c = true)
              (list_ascii_of_string (candidate rnd k))).
  { intros k. destruct (generateRandomCode_format rnd (6 * k) Hr) as (H1 & H2 & _).
    split; assumption. }
  destruct (first_free (table st) rnd 10 0) as [j|] eqn:Hff.
  - pose proof (first_free_Some _ _ _ _ _ Hff) as (Hj & Hfree & Hbefore).
    exists (S j). cbn [fst snd error_kind].
    replace (S j - 1)%nat with j by lia.
    split; [lia|]. split; [exact Hformat|].
    split; [intros k Hk; apply Hbefore; lia|].
    split; [|split].
    + split; [discriminate|]. intros Hall.
      destruct (Hall j ltac:(lia)) as [x Hx]. congruence.
    + discriminate.
    + intros _. split; [exact Hfree | reflexivity].
  - pose proof (proj1 (first_free_None _ _ _ _) Hff) as Hall.
    exists 10%nat. cbn [fst snd error_kind String.eqb].
    split; [lia|]. split; [exact Hformat|].
    split; [intros k Hk; apply Hall; lia|].
    split; [|split].
    + split; [intros _ k Hk; apply Hall; lia | reflexivity].
    + intros _. split; reflexivity.
    + intros Hne. exfalso. apply Hne. reflexivity.
Qed.

Lemma C5_generation_bound_witness :
  let env := mkEnv (fun k => k mod 62)%nat 1700000000000 1700000000000 "ckv1" in
  let st :=
    mkStore {[ "ABCDEF" := Link.mk "ckv0" "ABCDEF" "https://example.org" 3
                              (Some 1600000000000) 1500000000000 1600000000000 ]}
      [] in
  let rnd := random env in
  let result :=
    ApiLinks.POST Whatwg.parse (mkBody (Some "https://example.com") None) env st in
  let exhausted := error_kind (fst result) = Some ExhaustedCodeSpace in
  exists n : nat,
    (1 <= n <= 10)%nat /\
    (forall k, String.length (candidate rnd k) = 6%nat /\
               Forall (fun c => is_alnum c = true)
                 (list_ascii_of_string (candidate rnd k))) /\
    (forall k, (k < n - 1)%nat -> is_Some (table st !! candidate rnd k)) /\
    (exhausted <->
     forall k, (k < 10)%nat -> is_Some (table st !! candidate rnd k)) /\
    (exhausted ->
     n = 10%nat /\
     snd result = mkStore (table st) (trace st ++ lookups rnd 0 n)) /\
    (~ exhausted ->
     table st !! candidate rnd (n - 1) = None /\
     result =
     (NextResponse_json
        (LinkJson (new_link env (candidate rnd (n - 1)) "https://example.com"))
        201,
      mkStore (<[candidate rnd (n - 1)
                 := new_link env (candidate rnd (n - 1)) "https://example.com"]>
                 (table st))
        (trace st ++ lookups rnd 0 n ++ [QCreate (candidate rnd (n - 1))]))).
Proof.
  intros env st.
  apply (C5_generation_bound Whatwg.parse "https://example.com" env st).
  - reflexivity.
  - exact in_range_identity_mod.
Defined.

(** The witness above is the run with one collision: the candidate
    [ABCDEF] is taken, the candidate [GHIJKL] is free. *)
Example generation_after_one_collision :
  let env := mkEnv (fun k => k mod 62)%nat 1700000000000 1700000000000 "ckv1" in
  let st :=
    mkStore {[ "ABCDEF" := Link.mk "ckv0" "ABCDEF" "https://example.org" 3
                              (Some 1600000000000) 1500000000000 1600000000000 ]}
      [] in
  let result :=
    ApiLinks.POST Whatwg.parse (mkBody (Some "https://example.com") None) env st in
  fst result
  = NextResponse_json
      (LinkJson (Link.mk "ckv1" "GHIJKL" "https://example.com" 0 None
                   1700000000000 1700000000000)) 201 /\
  trace (snd result)
  = [QFindUnique "ABCDEF"; QFindUnique "GHIJKL"; QCreate "GHIJKL"].
Proof. split; vm_compute; reflexivity. Qed.

(** ** What a successful create stores *)

Lemma well_formed_empty : Registry.well_formed ∅.
Proof. intros k link H. rewrite lookup_empty in H. discriminate. Qed.

Lemma well_formed_insert m code link :
  Registry.well_formed m ->
  Link.code link = code -> isValidCode code = true ->
  Registry.well_formed (<[code := link]> m).
Proof.
  intros Hwf Hcode Hok k l Hl. destruct (decide (k = code)) as [->|Hne].
  - rewrite lookup_insert_eq in Hl. inversion Hl; subst l. split; assumption.
  - rewrite lookup_insert_ne in Hl by congruence. now apply Hwf.
Qed.

Lemma well_formed_delete m code :
  Registry.well_formed m -> Registry.well_formed (delete code m).
Proof.
  intros Hwf k l Hl. apply lookup_delete_Some in Hl as [_ Hl]. now apply Hwf.
Qed.

(** The facts about a row [new_link env code targetUrl] inserted under a
    free code of the right format. *)
Lemma created_row_facts (env : Env) (st st' : Store) (code targetUrl : string) :
  Registry.well_formed (table st) ->
  isValidCode code = true ->
  table st !! code = None ->
  table st' = <[code := new_link env code targetUrl]> (table st) ->
  let link := new_link env code targetUrl in
  Link.clicks link = 0 /\
  Link.lastClicked link = None /\
  Link.createdAt link = stamp env /\
  Link.updatedAt link = stamp env /\
  isValidCode (Link.code link) = true /\
  Some targetUrl = Some (Link.targetUrl link) /\
  (forall k other, table st !! k = Some other ->
                   Link.code other <> Link.code link) /\
  table st' = <[Link.code link := link]> (table st) /\
  (forall k, k <> Link.code link -> table st' !! k = table st !! k) /\
  size (table st') = S (size (table st)) /\
  Registry.well_formed (table st').
Proof.
  intros Hwf Hok Hfree Htable link. subst link.
  cbn [new_link Link.clicks Link.lastClicked Link.createdAt Link.updatedAt
       Link.code Link.targetUrl].
  do 4 (split; [reflexivity|]).
  split; [exact Hok|]. split; [reflexivity|].
  split.
  { intros k other Hk Heq. destruct (Hwf k other Hk) as [Hcode _].
    rewrite Hcode in Heq. subst k. congruence. }
  split; [exact Htable|].
  split.
  { intros k Hk. rewrite Htable. now apply lookup_insert_ne. }
  split.
  { rewrite Htable. now apply map_size_insert_None. }
  intros k l Hl. rewrite Htable in Hl.
  destruct (decide (k = code)) as [->|Hne].
  - rewrite lookup_insert_eq in Hl. inversion Hl; subst l.
    split; [reflexivity | exact Hok].
  - rewrite lookup_insert_ne in Hl by congruence. now apply (Hwf k l).
Qed.

(** C9.  For every create that succeeds, on a table that satisfies the
    invariant and with draws in range: the Link returned has [clicks = 0],
    no [lastClicked], [createdAt = updatedAt =] the time of the creation, a
    code of the format [[A-Za-z0-9]{6,8}] that no stored Link has, and the
    target of the request; the table afterwards is the table before with
    that one Link added under its code, so every other row is as it was and
    the table has one row more; the invariant still holds. *)
Theorem C9_created_link
    (URL_new : string -> option Whatwg.URLRecord)
    (body : Body) (env : Env) (st st' : Store) (link : Link.t) :
  Registry.well_formed (table st) ->
  in_range_draws (random env) ->
  ApiLinks.POST URL_new body env st = (NextResponse_json (LinkJson link) 201, st') ->
  Link.clicks link = 0 /\
  Link.lastClicked link = None /\
  Link.createdAt link = stamp env /\
  Link.updatedAt link = stamp env /\
  isValidCode (Link.code link) = true /\
  body_targetUrl body = Some (Link.targetUrl link) /\
  (forall k other, table st !! k = Some other ->
                   Link.code other <> Link.code link) /\
  table st' = <[Link.code link := link]> (table st) /\
  (forall k, k <> Link.code link -> table st' !! k = table st !! k) /\
  size (table st') = S (size (table st)) /\
  Registry.well_formed (table st').
Proof.
  intros Hwf Hr Hpost.
  assert (Hv : valid_target URL_new (body_targetUrl body) = true).
  { destruct (valid_target URL_new (body_targetUrl body)) eqn:Hv; [reflexivity|].
    destruct (POST_invalid_target URL_new body env st Hv) as (msg & Hres & _).
    rewrite Hres in Hpost. discriminate. }
  pose proof (POST_outcome URL_new body env st Hv) as Hout.
  rewrite Hpost in Hout. cbn [fst snd] in Hout.
  inversion Hout as [c Hc _ Hbad Hresp Hs | c l Hc _ _ _ Hresp Hs
                     | c t Ht Hc _ Hok Hfree Hresp Hs
                     | j t Ht Hf Hff Hresp Hs | Hf _ Hresp Hs];
    subst link.
  - rewrite Ht, Hs.
    apply (created_row_facts env st st' c t); auto. now rewrite <- Hs.
  - apply first_free_Some in Hff as (_ & Hfree & _). rewrite Ht, Hs.
    apply (created_row_facts env st st' (candidate (random env) j) t); auto.
    + apply (generateRandomCode_format (random env) (6 * j) Hr).
    + now rewrite <- Hs.
Qed.

Lemma C9_created_link_witness :
  let env := mkEnv (fun k => k mod 62)%nat 1700000000000 1700000000000 "ckv1" in
  let link := Link.mk "ckv1" "ABCDEF" "https://example.com" 0 None
                1700000000000 1700000000000 in
  Link.clicks link = 0 /\
  Link.lastClicked link = None /\
  Link.createdAt link = stamp env /\
  Link.updatedAt link = stamp env /\
  isValidCode (Link.code link) = true.
Proof.
  intros env link.
  pose proof well_formed_empty as Hwf.
  destruct (C9_created_link Whatwg.parse
              (mkBody (Some "https://example.com") None) env
              (mkStore ∅ [])
              (mkStore {[ "ABCDEF" := link ]}
                 [QFindUnique "ABCDEF"; QCreate "ABCDEF"])
              link Hwf in_range_identity_mod)
    as (H1 & H2 & H3 & H4 & H5 & _).
  - vm_compute. reflexivity.
  - repeat split; assumption.
Defined.

(** ** Resolve *)

Lemma resolve_absent code env st :
  table st !! code = None ->
  CodeRoute.GET code env st
  = (NextResponse_json (ErrorJson "Link not found") 404,
     issue (QFindUnique code) st).
Proof.
  intros H. unfold CodeRoute.GET, try_catch, bind, prisma.findUnique.
  now rewrite H.
Qed.

Lemma is_Int_succ (z : Z) :
  is_Int z = true -> z < Int_MAX -> is_Int (z + 1) = true.
Proof.
  unfold is_Int, Int_MIN, Int_MAX. intros H Hlt.
  apply andb_true_iff in H as [Hlo Hhi].
  apply Z.leb_le in Hlo. apply andb_true_iff. split; apply Z.leb_le; lia.
Qed.

Lemma resolve_present code env st link :
  table st !! code = Some link ->
  is_Int (Link.clicks link + 1) = true ->
  CodeRoute.GET code env st
  = (NextResponse_redirect (Link.targetUrl link) 302,
     mkStore (<[code := clicked env link]> (table st))
       (trace st ++ [QFindUnique code; QUpdate code])).
Proof.
  intros H Hint. unfold CodeRoute.GET, try_catch, bind, prisma.findUnique.
  rewrite H. unfold prisma.update, issue. cbn [table trace]. rewrite H.
  cbn [CodeRoute.record_click Link.clicks]. rewrite Hint.
  unfold ret, clicked.
  cbn [Link.id Link.code Link.targetUrl Link.clicks Link.lastClicked
       Link.createdAt Link.updatedAt].
  now rewrite <- app_assoc.
Qed.

(** The update is refused: the handler ends in its [catch]. *)
Lemma resolve_refused code env st link :
  table st !! code = Some link ->
  is_Int (Link.clicks link + 1) = false ->
  CodeRoute.GET code env st
  = (NextResponse_json (ErrorJson "Internal server error") 500,
     mkStore (table st) (trace st ++ [QFindUnique code; QUpdate code])).
Proof.
  intros H Hint. unfold CodeRoute.GET, try_catch, bind, prisma.findUnique.
  rewrite H. unfold prisma.update, issue. cbn [table trace]. rewrite H.
  cbn [CodeRoute.record_click Link.clicks]. rewrite Hint.
  now rewrite <- app_assoc.
Qed.

(** What a resolve does to the table: nothing, or it answers the redirect
    and replaces the row of its code by the row with the click recorded. *)
Lemma resolve_table code env st :
  (table (snd (CodeRoute.GET code env st)) = table st /\
   forall url, fst (CodeRoute.GET code env st) <> NextResponse_redirect url 302)
  \/
  exists link,
    table st !! code = Some link /\
    is_Int (Link.clicks link + 1) = true /\
    fst (CodeRoute.GET code env st)
    = NextResponse_redirect (Link.targetUrl link) 302 /\
    table (snd (CodeRoute.GET code env st))
    = <[code := clicked env link]> (table st).
Proof.
  destruct (table st !! code) as [link|] eqn:H.
  - destruct (is_Int (Link.clicks link + 1)) eqn:Hint.
    + right. exists link. rewrite (resolve_present code env st link H Hint).
      repeat split; assumption.
    + left. rewrite (resolve_refused code env st link H Hint).
      split; [reflexivity | discriminate].
  - left. rewrite (resolve_absent code env st H).
    split; [reflexivity | discriminate].
Qed.

(** C2, as stated, fails.  A Link whose [clicks] is the largest value of the
    column is stored under the code; the resolve does not increment it and
    does not return the target: the update is refused, the answer is 500 and
    the row is as before. *)
Lemma C2_counterexample :
  let link := Link.mk "ckv0" "docs2024" "https://example.org" 2147483647
                (Some 1600000000000) 1500000000000 1600000000000 in
  let st := mkStore {[ "docs2024" := link ]} [] in
  let result :=
    CodeRoute.GET "docs2024"
      (mkEnv (fun k => k) 1700000000000 1700000000001 "ckv1") st in
  table st !! "docs2024" = Some link /\
  fst result = NextResponse_json (ErrorJson "Internal server error") 500 /\
  table (snd result) !! "docs2024" = Some link.
Proof. repeat split; vm_compute; reflexivity. Qed.

(** C2, amended.  Resolving a code that no stored Link has fails with
    NotFound and leaves the table as it is.  Resolving the code of a stored
    Link whose [clicks] is in the range of the column and below its largest
    value, and whose target the URL constructor accepts (as it does every
    target a create has stored), answers with the redirect to its target,
    and the table afterwards differs only in that row: [clicks] is one more,
    [lastClicked] is the time the handler read ([new Date()]), [updatedAt]
    is the time the storage layer stamped on the update, and [id], [code],
    [targetUrl] and [createdAt] are as before.  When [clicks] is the largest
    value of the column, the resolve is answered 500 and the table is left
    as it is. *)
Theorem C2_resolve (URL_new : string -> option Whatwg.URLRecord)
    (code : string) (env : Env) (st : Store) :
  let result := CodeRoute.GET code env st in
  (table st !! code = None ->
     error_kind (fst result) = Some NotFound /\
     table (snd result) = table st) /\
  (forall link, table st !! code = Some link ->
     is_Int (Link.clicks link) = true -> Link.clicks link < Int_MAX ->
     ApiLinks.isValidUrl URL_new (Link.targetUrl link) = true ->
     fst result = NextResponse_redirect (Link.targetUrl link) 302 /\
     exists link',
       table (snd result) = <[code := link']> (table st) /\
       Link.clicks link' = Link.clicks link + 1 /\
       Link.lastClicked link' = Some (now env) /\
       Link.updatedAt link' = stamp env /\
       Link.id link' = Link.id link /\
       Link.code link' = Link.code link /\
       Link.targetUrl link' = Link.targetUrl link /\
       Link.createdAt link' = Link.createdAt link) /\
  (forall link, table st !! code = Some link ->
     Link.clicks link = Int_MAX ->
     error_kind (fst result) = Some StorageFailure /\
     table (snd result) = table st).
Proof.
  intros result. subst result. split; [|split].
  - intros H. rewrite (resolve_absent code env st H). split; reflexivity.
  - intros link H Hint Hlt _.
    rewrite (resolve_present code env st link H (is_Int_succ _ Hint Hlt)).
    split; [reflexivity|]. exists (clicked env link). repeat split.
  - intros link H Hmax.
    rewrite (resolve_refused code env st link H)
      by (rewrite Hmax; reflexivity).
    split; reflexivity.
Qed.

Lemma C2_resolve_witness :
  let link := Link.mk "ckv0" "docs2024" "https://example.org" 3
                (Some 1600000000000) 1500000000000 1600000000000 in
  let env := mkEnv (fun k => k) 1700000000000 1700000000001 "ckv1" in
  let result := CodeRoute.GET "docs2024" env (mkStore {[ "docs2024" := link ]} []) in
  fst result = NextResponse_redirect "https://example.org" 302 /\
  exists link',
    table (snd result) = <["docs2024" := link']> {[ "docs2024" := link ]} /\
    Link.clicks link' = 3 + 1 /\
    Link.lastClicked link' = Some 1700000000000 /\
    Link.updatedAt link' = 1700000000001.
Proof.
  intros link env result.
  destruct (C2_resolve Whatwg.parse "docs2024" env
              (mkStore {[ "docs2024" := link ]} [])) as (_ & Hpresent & _).
  destruct (Hpresent link) as (Hresp & link' & Htable & Hclicks & Hlast & Hupd & _).
  - vm_compute. reflexivity.
  - reflexivity.
  - reflexivity.
  - vm_compute. reflexivity.
  - split; [exact Hresp|]. exists link'. repeat split; assumption.
Defined.

(** ** Get and delete *)

Lemma get_absent code st :
  table st !! code = None ->
  ApiLinksCode.GET code st
  = (NextResponse_json (ErrorJson "Link not found") 404,
     issue (QFindUnique code) st).
Proof.
  intros H. unfold ApiLinksCode.GET, try_catch, bind, prisma.findUnique.
  now rewrite H.
Qed.

Lemma get_present code st link :
  table st !! code = Some link ->
  ApiLinksCode.GET code st
  = (NextResponse_json (LinkJson link) 200, issue (QFindUnique code) st).
Proof.
  intros H. unfold ApiLinksCode.GET, try_catch, bind, prisma.findUnique.
  now rewrite H.
Qed.

Lemma delete_absent code st :
  table st !! code = None ->
  ApiLinksCode.DELETE code st
  = (NextResponse_json (ErrorJson "Link not found") 404,
     issue (QFindUnique code) st).
Proof.
  intros H. unfold ApiLinksCode.DELETE, try_catch, bind, prisma.findUnique.
  now rewrite H.
Qed.

Lemma delete_present code st link :
  table st !! code = Some link ->
  ApiLinksCode.DELETE code st
  = (NextResponse_json (MessageJson "Link deleted successfully") 200,
     mkStore (delete code (table st))
       (trace st ++ [QFindUnique code; QDelete code])).
Proof.
  intros H. unfold ApiLinksCode.DELETE, try_catch, bind, prisma.findUnique.
  rewrite H. unfold prisma.delete, issue. cbn [table trace]. rewrite H.
  unfold ret. now rewrite <- app_assoc.
Qed.

Lemma list_table st : table (snd (ApiLinks.GET st)) = table st.
Proof. reflexivity. Qed.

(** C7.  Deleting a code that no stored Link has fails with NotFound and
    leaves the table as it is; deleting the code of a stored Link succeeds
    and removes the row.  Either way a second delete of the same code, right
    after the first, fails with NotFound. *)
Theorem C7_delete_not_found (code : string) (st : Store) :
  let first := ApiLinksCode.DELETE code st in
  let second := ApiLinksCode.DELETE code (snd first) in
  (table st !! code = None ->
     error_kind (fst first) = Some NotFound /\
     table (snd first) = table st) /\
  (is_Some (table st !! code) ->
     fst first
     = NextResponse_json (MessageJson "Link deleted successfully") 200 /\
     table (snd first) = delete code (table st)) /\
  error_kind (fst second) = Some NotFound /\
  table (snd second) = table (snd first).
Proof.
  intros first second. subst first second.
  destruct (table st !! code) as [link|] eqn:H.
  - rewrite (delete_present code st link H). cbn [fst snd].
    rewrite delete_absent by (cbn [table]; apply lookup_delete_eq).
    split; [discriminate|]. split; [intros _; split; reflexivity|].
    split; reflexivity.
  - rewrite (delete_absent code st H). cbn [fst snd].
    rewrite delete_absent by exact H.
    split; [intros _; split; reflexivity|].
    split; [intros [x Hx]; discriminate|]. split; reflexivity.
Qed.

(** ** The invariant of the table *)

(** Every request keeps the invariant, so it holds in every state the
    Registry reaches from the empty table. *)
Lemma serve_well_formed URL_new (c : Registry.Call) (st : Store) :
  Registry.well_formed (table st) -> call_in_range c ->
  Registry.well_formed (table (snd (Registry.serve URL_new c st))).
Proof.
  intros Hwf Hr. destruct c as [body env | c env | c | | c];
    cbn [Registry.serve call_in_range] in *.
  - destruct (valid_target URL_new (body_targetUrl body)) eqn:Hv.
    + pose proof (POST_outcome URL_new body env st Hv) as Hout.
      destruct (ApiLinks.POST URL_new body env st) as [r st1].
      cbn [fst snd] in *.
      inversion Hout as [k Hc _ Hbad | k l Hc _ _ _
                         | k t Ht Hc _ Hok Hk
                         | j t Ht Hf Hff | Hf _];
        subst; cbn [table issue]; auto.
      * apply well_formed_insert; auto.
      * apply well_formed_insert; auto.
        apply (generateRandomCode_format (random env) (6 * j) Hr).
    + destruct (POST_invalid_target URL_new body env st Hv) as (msg & -> & _).
      exact Hwf.
  - destruct (resolve_table c env st) as [[-> _] | (link & Hc & _ & _ & ->)].
    + exact Hwf.
    + destruct (Hwf c link Hc) as [Hcode Hok].
      apply well_formed_insert; auto.
  - destruct (table st !! c) as [link|] eqn:Hc.
    + rewrite (get_present c st link Hc). exact Hwf.
    + rewrite (get_absent c st Hc). exact Hwf.
  - exact Hwf.
  - destruct (table st !! c) as [link|] eqn:Hc.
    + rewrite (delete_present c st link Hc). cbn [snd table].
      now apply well_formed_delete.
    + rewrite (delete_absent c st Hc). exact Hwf.
Qed.

Lemma serve_all_well_formed URL_new (cs : list Registry.Call) :
  forall st,
    Registry.well_formed (table st) -> Forall call_in_range cs ->
    Registry.well_formed (table (snd (Registry.serve_all URL_new cs st))).
Proof.
  induction cs as [|c cs IH]; intros st Hwf Hr; [exact Hwf|].
  inversion Hr; subst. cbn [Registry.serve_all].
  pose proof (serve_well_formed URL_new c st Hwf ltac:(assumption)) as Hstep.
  destruct (Registry.serve URL_new c st) as [r st1].
  specialize (IH st1 Hstep ltac:(assumption)).
  destruct (Registry.serve_all URL_new cs st1) as [rs st2]. exact IH.
Qed.

(** ** A deleted code *)

Section Deleted.

Variable URL_new : string -> option Whatwg.URLRecord.

(** A request that does not report the creation of a Link with [code]
    leaves [code] free when it was free. *)
Lemma serve_keeps_free (code : string) (c : Registry.Call) (st : Store) :
  table st !! code = None ->
  ~ Registry.created_with code (fst (Registry.serve URL_new c st)) ->
  table (snd (Registry.serve URL_new c st)) !! code = None.
Proof.
  intros Hfree Hnot. destruct c as [body env | c env | c | | c];
    cbn [Registry.serve] in *.
  - destruct (valid_target URL_new (body_targetUrl body)) eqn:Hv.
    + pose proof (POST_outcome URL_new body env st Hv) as Hout.
      destruct (ApiLinks.POST URL_new body env st) as [r st1].
      cbn [fst snd] in *.
      inversion Hout as [k Hc _ Hbad | k l Hc _ _ _
                         | k t Ht Hc _ Hok Hk
                         | j t Ht Hf Hff | Hf _];
        subst; cbn [table issue]; auto.
      * rewrite lookup_insert_ne; [exact Hfree|].
        intros ->. apply Hnot. reflexivity.
      * rewrite lookup_insert_ne; [exact Hfree|].
        intros Heq. apply Hnot. exact Heq.
    + destruct (POST_invalid_target URL_new body env st Hv) as (msg & -> & _).
      exact Hfree.
  - destruct (resolve_table c env st) as [[-> _] | (link & Hc & _ & _ & ->)].
    + exact Hfree.
    + rewrite lookup_insert_ne; [exact Hfree | congruence].
  - destruct (table st !! c) as [link|] eqn:Hc.
    + rewrite (get_present c st link Hc). exact Hfree.
    + rewrite (get_absent c st Hc). exact Hfree.
  - exact Hfree.
  - destruct (table st !! c) as [link|] eqn:Hc.
    + rewrite (delete_present c st link Hc). cbn [snd table].
      destruct (decide (c = code)) as [->|Hne].
      * apply lookup_delete_eq.
      * rewrite lookup_delete_ne; [exact Hfree | exact Hne].
    + rewrite (delete_absent c st Hc). exact Hfree.
Qed.

Lemma serve_all_keeps_free (code : string) (cs : list Registry.Call) :
  forall st,
    table st !! code = None ->
    Forall (fun r => ~ Registry.created_with code r)
      (fst (Registry.serve_all URL_new cs st)) ->
    table (snd (Registry.serve_all URL_new cs st)) !! code = None.
Proof.
  induction cs as [|c cs IH]; intros st Hfree Hall; [exact Hfree|].
  cbn [Registry.serve_all] in *.
  pose proof (serve_keeps_free code c st Hfree) as Hstep.
  destruct (Registry.serve URL_new c st) as [r st1].
  specialize (IH st1).
  destruct (Registry.serve_all URL_new cs st1) as [rs st2].
  cbn [fst snd] in *. inversion Hall; subst. auto.
Qed.

(** C3.  After a delete of [code] that succeeded, and after any sequence
    of further requests none of which created a Link with [code]: no row of
    the table has [code], a resolve of [code] fails with NotFound, a get of
    [code] fails with NotFound, and a create of a valid target with [code]
    as the requested code succeeds: it returns a new Link with that code,
    the table afterwards is the table before with that Link stored under
    [code], and a resolve of [code] then redirects to the new target. *)
Theorem C3_deleted_code_is_gone_and_free
    (code targetUrl : string) (env env' : Env)
    (cs : list Registry.Call) (st : Store) :
  Registry.well_formed (table st) ->
  fst (ApiLinksCode.DELETE code st)
  = NextResponse_json (MessageJson "Link deleted successfully") 200 ->
  valid_target URL_new (Some targetUrl) = true ->
  let after := Registry.serve_all URL_new cs (snd (ApiLinksCode.DELETE code st)) in
  Forall (fun r => ~ Registry.created_with code r) (fst after) ->
  let created :=
    ApiLinks.POST URL_new (mkBody (Some targetUrl) (Some code)) env (snd after) in
  table (snd after) !! code = None /\
  error_kind (fst (CodeRoute.GET code env' (snd after))) = Some NotFound /\
  error_kind (fst (ApiLinksCode.GET code (snd after))) = Some NotFound /\
  fst created = NextResponse_json (LinkJson (new_link env code targetUrl)) 201 /\
  table (snd created) = <[code := new_link env code targetUrl]> (table (snd after)) /\
  fst (CodeRoute.GET code env' (snd created))
  = NextResponse_redirect targetUrl 302.
Proof.
  intros Hwf Hdel Hv after Hall created. subst created.
  destruct (table st !! code) as [link|] eqn:Hlook.
  - destruct (Hwf code link Hlook) as [_ Hok].
    assert (Hfree : table (snd after) !! code = None).
    { subst after. apply serve_all_keeps_free; [|exact Hall].
      rewrite (delete_present code st link Hlook). cbn [snd table].
      apply lookup_delete_eq. }
    rewrite (resolve_absent code env' _ Hfree).
    rewrite (get_absent code _ Hfree).
    rewrite (POST_custom_free URL_new (mkBody (Some targetUrl) (Some code))
               env (snd after) code targetUrl Hv eq_refl eq_refl Hok Hfree).
    cbn [fst snd table].
    rewrite (resolve_present code env' _ (new_link env code targetUrl))
      by (cbn [table]; first [apply lookup_insert_eq | reflexivity]).
    repeat split; assumption.
  - rewrite (delete_absent code st Hlook) in Hdel. discriminate.
Qed.

End Deleted.

Lemma C3_deleted_code_is_gone_and_free_witness :
  let env0 := mkEnv (fun k => k mod 62)%nat 1700000000000 1700000000000 "ckv1" in
  let env1 := mkEnv (fun k => k mod 62)%nat 1700000001000 1700000001000 "ckv2" in
  let st :=
    mkStore {[ "docs2024" := Link.mk "ckv0" "docs2024" "https://example.org" 3
                                (Some 1600000000000) 1500000000000 1600000000000 ]}
      [] in
  let cs := [Registry.Resolve "docs2024" env0;
             Registry.Create (mkBody (Some "https://example.net") None) env0;
             Registry.List; Registry.Get "docs2024";
             Registry.Delete "docs2024"] in
  let after :=
    Registry.serve_all Whatwg.parse cs (snd (ApiLinksCode.DELETE "docs2024" st)) in
  let created :=
    ApiLinks.POST Whatwg.parse
      (mkBody (Some "https://example.com") (Some "docs2024")) env1 (snd after) in
  table (snd after) !! "docs2024" = None /\
  error_kind (fst (CodeRoute.GET "docs2024" env1 (snd after))) = Some NotFound /\
  error_kind (fst (ApiLinksCode.GET "docs2024" (snd after))) = Some NotFound /\
  fst created
  = NextResponse_json
      (LinkJson (new_link env1 "docs2024" "https://example.com")) 201 /\
  table (snd created)
  = <["docs2024" := new_link env1 "docs2024" "https://example.com"]>
      (table (snd after)) /\
  fst (CodeRoute.GET "docs2024" env1 (snd created))
  = NextResponse_redirect "https://example.com" 302.
Proof.
  intros env0 env1 st cs after.
  apply (C3_deleted_code_is_gone_and_free Whatwg.parse
           "docs2024" "https://example.com" env1 env1 cs st).
  - intros k link H. subst st. cbn [table] in H.
    apply lookup_singleton_Some in H as [<- <-]. split; reflexivity.
  - vm_compute. reflexivity.
  - reflexivity.
  - vm_compute. repeat constructor; intros H; try discriminate; exact H.
Defined.

(** ** Concurrent resolutions of one code *)

Lemma schedule_single code (t : Concurrent.Task) (st : Store) :
  Concurrent.schedule code ([t], st) 0
  = ([fst (Concurrent.step code t st)], snd (Concurrent.step code t st)).
Proof.
  unfold Concurrent.schedule. cbn [fst snd].
  change ([t] !! 0%nat) with (Some t). cbv beta iota.
  destruct (Concurrent.step code t st). reflexivity.
Qed.

Lemma step_start_present code env st link :
  table st !! code = Some link ->
  Concurrent.step code (Concurrent.Start env) st
  = (Concurrent.Found link env, issue (QFindUnique code) st).
Proof.
  intros H. cbn [Concurrent.step]. unfold prisma.findUnique. now rewrite H.
Qed.

Lemma step_start_absent code env st :
  table st !! code = None ->
  Concurrent.step code (Concurrent.Start env) st
  = (Concurrent.Done (NextResponse_json (ErrorJson "Link not found") 404),
     issue (QFindUnique code) st).
Proof.
  intros H. cbn [Concurrent.step]. unfold prisma.findUnique. now rewrite H.
Qed.

Lemma step_found_present code env st link row :
  table st !! code = Some row ->
  is_Int (Link.clicks row + 1) = true ->
  Concurrent.step code (Concurrent.Found link env) st
  = (Concurrent.Done (NextResponse_redirect (Link.targetUrl link) 302),
     mkStore (<[code := clicked env row]> (table st))
       (trace st ++ [QUpdate code])).
Proof.
  intros H Hint. cbn [Concurrent.step]. unfold prisma.update. rewrite H.
  cbn [CodeRoute.record_click Link.clicks]. now rewrite Hint.
Qed.

Lemma step_found_refused code env st link row :
  table st !! code = Some row ->
  is_Int (Link.clicks row + 1) = false ->
  Concurrent.step code (Concurrent.Found link env) st
  = (Concurrent.Done (NextResponse_json (ErrorJson "Internal server error") 500),
     mkStore (table st) (trace st ++ [QUpdate code])).
Proof.
  intros H Hint. cbn [Concurrent.step]. unfold prisma.update. rewrite H.
  cbn [CodeRoute.record_click Link.clicks]. now rewrite Hint.
Qed.

(** A task served alone performs its two queries one after the other: that
    is the handler [CodeRoute.GET]. *)
Lemma run_alone (code : string) (env : Env) (st : Store) :
  Concurrent.run code [0; 0]%nat ([Concurrent.Start env], st)
  = ([Concurrent.Done (fst (CodeRoute.GET code env st))],
     snd (CodeRoute.GET code env st)).
Proof.
  unfold Concurrent.run. cbn [fold_left]. rewrite schedule_single.
  destruct (table st !! code) as [link|] eqn:H.
  - rewrite (step_start_present code env st link H). cbn [fst snd].
    rewrite schedule_single.
    destruct (is_Int (Link.clicks link + 1)) eqn:Hint.
    + rewrite (step_found_present code env _ link link) by assumption.
      rewrite (resolve_present code env st link H Hint). cbn [fst snd].
      unfold issue. cbn [table trace]. now rewrite <- app_assoc.
    + rewrite (step_found_refused code env _ link link) by assumption.
      rewrite (resolve_refused code env st link H Hint). cbn [fst snd].
      unfold issue. cbn [table trace]. now rewrite <- app_assoc.
  - rewrite (step_start_absent code env st H). cbn [fst snd].
    rewrite schedule_single.
    rewrite (resolve_absent code env st H). reflexivity.
Qed.

Lemma redirect_count_insert (ts : list Concurrent.Task) (i : nat)
    (t t' : Concurrent.Task) :
  ts !! i = Some t ->
  (redirect_count (<[i := t']> ts) + is_redirected t
   = redirect_count ts + is_redirected t')%nat.
Proof.
  revert i. induction ts as [|u ts IH]; intros i H; [discriminate|].
  destruct i as [|i]; simpl in *.
  - inversion H; subst. lia.
  - specialize (IH i H). lia.
Qed.

Lemma redirect_count_all (ts : list Concurrent.Task) :
  Forall Concurrent.succeeded ts -> redirect_count ts = length ts.
Proof.
  induction 1 as [|t ts [url ->] _ IH]; simpl; [reflexivity | now rewrite IH].
Qed.

Lemma redirect_count_start (envs : list Env) :
  redirect_count (map Concurrent.Start envs) = 0%nat.
Proof. induction envs; simpl; auto. Qed.

(** A task that has not completed with the redirect is not counted. *)
Lemma redirect_count_below (ts : list Concurrent.Task) (i : nat)
    (t : Concurrent.Task) :
  ts !! i = Some t -> is_redirected t = 0%nat ->
  (redirect_count ts < length ts)%nat.
Proof.
  assert (Hone : forall u, (is_redirected u <= 1)%nat).
  { intros u. unfold is_redirected. repeat case_match; lia. }
  assert (Hle : forall us, (redirect_count us <= length us)%nat).
  { induction us as [|u us IH]; simpl; [lia|]. specialize (Hone u). lia. }
  revert i. induction ts as [|u ts IH]; intros i H Hz; [discriminate|].
  destruct i as [|i]; simpl in *.
  - inversion H; subst. rewrite Hz. specialize (Hle ts). lia.
  - specialize (IH i H Hz). specialize (Hone u). lia.
Qed.

Lemma counted_schedule code clicks0 cfg i :
  counted code clicks0 cfg -> counted code clicks0 (Concurrent.schedule code cfg i).
Proof.
  destruct cfg as [ts st]. intros (row & Hrow & Hclicks).
  unfold Concurrent.schedule. cbn [fst snd] in *.
  destruct (ts !! i) as [t|] eqn:Hi; [|exists row; split; assumption].
  pose proof (redirect_count_insert ts i t) as Hcount.
  destruct t as [env | link env | r]; cbn [Concurrent.step].
  - unfold prisma.findUnique. rewrite Hrow. cbn [fst snd].
    exists row. split; [exact Hrow|].
    specialize (Hcount (Concurrent.Found row env) Hi). simpl in Hcount.
    cbn [fst]. rewrite Hclicks. lia.
  - unfold prisma.update. rewrite Hrow.
    cbn [CodeRoute.record_click Link.clicks].
    destruct (is_Int (Link.clicks row + 1)) eqn:Hint; cbn [fst snd].
    + eexists. unfold issue. cbn [table]. split; [apply lookup_insert_eq|].
      specialize (Hcount (Concurrent.Done
        (NextResponse_redirect (Link.targetUrl link) 302)) Hi).
      simpl in Hcount. cbn [fst Link.clicks]. rewrite Hclicks. lia.
    + exists row. unfold issue. cbn [table]. split; [exact Hrow|].
      specialize (Hcount (Concurrent.Done
        (NextResponse_json (ErrorJson "Internal server error") 500)) Hi).
      simpl in Hcount. cbn [fst]. rewrite Hclicks. lia.
  - cbn [fst snd]. rewrite list_insert_id by exact Hi.
    exists row. split; assumption.
Qed.

Lemma counted_run code clicks0 sched :
  forall cfg, counted code clicks0 cfg ->
              counted code clicks0 (Concurrent.run code sched cfg).
Proof.
  unfold Concurrent.run.
  induction sched as [|i sched IH]; intros cfg H; [exact H|].
  simpl. apply IH. now apply counted_schedule.
Qed.

Lemma schedule_length code cfg i :
  length (fst (Concurrent.schedule code cfg i)) = length (fst cfg).
Proof.
  unfold Concurrent.schedule.
  destruct (fst cfg !! i); [|reflexivity].
  destruct (Concurrent.step code t (snd cfg)). cbn [fst].
  apply length_insert.
Qed.

Lemma run_length code sched :
  forall cfg, length (fst (Concurrent.run code sched cfg)) = length (fst cfg).
Proof.
  unfold Concurrent.run.
  induction sched as [|i sched IH]; intros cfg; [reflexivity|].
  simpl. rewrite IH. apply schedule_length.
Qed.

(** The invariant holds when the requests arrive. *)
Lemma counted_init code (envs : list Env) st link :
  table st !! code = Some link ->
  counted code (Link.clicks link) (map Concurrent.Start envs, st).
Proof.
  intros Hlook. exists link. cbn [fst snd]. rewrite redirect_count_start.
  split; [exact Hlook | lia].
Qed.

(** While the column has room for one click of every request in flight, a
    task that completes does so with the redirect. *)
Lemma redirected_schedule code clicks0 cfg i :
  is_Int clicks0 = true ->
  clicks0 + Z.of_nat (length (fst cfg)) <= Int_MAX ->
  counted code clicks0 cfg ->
  Forall (fun t => stage t = 2%nat -> Concurrent.succeeded t) (fst cfg) ->
  Forall (fun t => stage t = 2%nat -> Concurrent.succeeded t)
    (fst (Concurrent.schedule code cfg i)).
Proof.
  destruct cfg as [ts st]. intros Hint0 Hroom (row & Hrow & Hclicks) Hdone.
  unfold Concurrent.schedule. cbn [fst snd] in *.
  destruct (ts !! i) as [t|] eqn:Hi; [|exact Hdone].
  destruct t as [env | link env | r]; cbn [Concurrent.step].
  - unfold prisma.findUnique. rewrite Hrow. cbn [fst].
    apply Forall_insert; [exact Hdone | discriminate].
  - pose proof (redirect_count_below ts i _ Hi eq_refl) as Hbelow.
    assert (Hint : is_Int (Link.clicks row + 1) = true).
    { revert Hint0 Hroom. unfold is_Int, Int_MIN, Int_MAX. intros Hint0 Hroom.
      apply andb_true_iff in Hint0 as [Hlo _]. apply Z.leb_le in Hlo.
      apply andb_true_iff. split; apply Z.leb_le; lia. }
    unfold prisma.update. rewrite Hrow.
    cbn [CodeRoute.record_click Link.clicks]. rewrite Hint. cbn [fst].
    apply Forall_insert; [exact Hdone|]. intros _. eexists. reflexivity.
  - cbn [fst]. rewrite list_insert_id by exact Hi. exact Hdone.
Qed.

Lemma redirected_run code clicks0 sched :
  forall cfg,
    is_Int clicks0 = true ->
    clicks0 + Z.of_nat (length (fst cfg)) <= Int_MAX ->
    counted code clicks0 cfg ->
    Forall (fun t => stage t = 2%nat -> Concurrent.succeeded t) (fst cfg) ->
    Forall (fun t => stage t = 2%nat -> Concurrent.succeeded t)
      (fst (Concurrent.run code sched cfg)).
Proof.
  unfold Concurrent.run.
  induction sched as [|i sched IH]; intros cfg Hint0 Hroom Hinv Hdone;
    [exact Hdone|].
  simpl. apply IH.
  - exact Hint0.
  - now rewrite schedule_length.
  - now apply counted_schedule.
  - now apply redirected_schedule with clicks0.
Qed.

(** While only resolutions of a stored code are in flight, a scheduling
    decision moves the chosen task one query forward and leaves the others
    where they are. *)
Lemma stage_schedule code clicks0 cfg i j t :
  counted code clicks0 cfg ->
  fst cfg !! j = Some t ->
  exists t',
    fst (Concurrent.schedule code cfg i) !! j = Some t' /\
    stage t' = if decide (i = j) then Nat.min 2 (S (stage t)) else stage t.
Proof.
  destruct cfg as [ts st]. intros (row & Hrow & _) Hj.
  unfold Concurrent.schedule. cbn [fst snd] in *.
  destruct (decide (i = j)) as [->|Hne].
  - rewrite Hj. destruct t as [env | link env | r]; cbn [Concurrent.step].
    + unfold prisma.findUnique. rewrite Hrow. cbn [fst].
      eexists. split; [apply list_lookup_insert_eq; eapply lookup_lt_Some, Hj|].
      reflexivity.
    + unfold prisma.update. rewrite Hrow.
      destruct (is_Int _); cbn [fst];
        (eexists; split;
         [apply list_lookup_insert_eq; eapply lookup_lt_Some, Hj | reflexivity]).
    + cbn [fst]. eexists.
      split; [apply list_lookup_insert_eq; eapply lookup_lt_Some, Hj|].
      reflexivity.
  - destruct (ts !! i) as [u|] eqn:Hi; [|eauto].
    destruct (Concurrent.step code u st) as [u' st'] eqn:Hstep. cbn [fst].
    exists t. split; [|reflexivity].
    rewrite list_lookup_insert_ne by exact Hne. exact Hj.
Qed.

Lemma stage_run code clicks0 sched :
  forall cfg j t,
    counted code clicks0 cfg ->
    fst cfg !! j = Some t ->
    exists t',
      fst (Concurrent.run code sched cfg) !! j = Some t' /\
      stage t' = Nat.min 2 (stage t + count_occ Nat.eq_dec sched j).
Proof.
  unfold Concurrent.run.
  induction sched as [|i sched IH]; intros cfg j t Hinv Hj.
  - exists t. split; [exact Hj|]. simpl. destruct t; reflexivity.
  - destruct (stage_schedule code clicks0 cfg i j t Hinv Hj) as (u & Hu & Hstage).
    destruct (IH _ j u (counted_schedule code clicks0 cfg i Hinv) Hu)
      as (t' & Ht' & Hstage').
    exists t'. split; [exact Ht'|]. rewrite Hstage', Hstage. cbn [count_occ].
    destruct (decide (i = j)) as [->|Hne].
    + destruct (Nat.eq_dec j j); [lia | congruence].
    + destruct (Nat.eq_dec i j); [congruence | reflexivity].
Qed.

(** While the column has room for one click of each of the requests, every
    interleaving that gives each of them its two queries completes all of
    them with the redirect. *)
Lemma all_succeed_when_scheduled (code : string) (envs : list Env)
    (sched : list nat) (st : Store) (link : Link.t) :
  table st !! code = Some link ->
  is_Int (Link.clicks link) = true ->
  Link.clicks link + Z.of_nat (length envs) <= Int_MAX ->
  (forall j, (j < length envs)%nat -> (2 <= count_occ Nat.eq_dec sched j)%nat) ->
  Forall Concurrent.succeeded
    (fst (Concurrent.run code sched (map Concurrent.Start envs, st))).
Proof.
  intros Hlook Hint0 Hroom Hfair.
  pose proof (counted_init code envs st link Hlook) as Hinit.
  assert (Hdone : Forall (fun t => stage t = 2%nat -> Concurrent.succeeded t)
                    (fst (Concurrent.run code sched
                            (map Concurrent.Start envs, st)))).
  { apply redirected_run with (Link.clicks link); try assumption.
    - cbn [fst]. now rewrite length_map.
    - cbn [fst]. apply Forall_forall. intros t Ht Hd.
      apply list_elem_of_fmap in Ht as (env & -> & _). discriminate. }
  apply Forall_lookup. intros j t' Hj.
  assert (Hlt : (j < length envs)%nat).
  { apply lookup_lt_Some in Hj. rewrite run_length in Hj. cbn [fst] in Hj.
    now rewrite length_map in Hj. }
  destruct (lookup_lt_is_Some_2 (map Concurrent.Start envs) j) as [t Ht];
    [now rewrite length_map|].
  destruct (stage_run code (Link.clicks link) sched _ j t Hinit Ht)
    as (u & Hu & Hstage).
  rewrite Hj in Hu. inversion Hu; subst u.
  specialize (Hfair j Hlt).
  rewrite Forall_lookup in Hdone. apply (Hdone j t' Hj).
  assert (Hzero : stage t = 0%nat).
  { apply list_lookup_fmap_Some in Ht as (env & -> & _). reflexivity. }
  lia.
Qed.

(** C1.  [N] requests to resolve the code of a stored Link are in flight at
    the same time, and their queries interleave in any order [sched].  If
    they all complete with the redirect, the value of [clicks] at the end is
    the value at the beginning plus [N]. *)
Theorem C1_concurrent_resolutions
    (code : string) (envs : list Env) (sched : list nat)
    (st : Store) (link : Link.t) :
  (1 <= length envs)%nat ->
  table st !! code = Some link ->
  let final := Concurrent.run code sched (map Concurrent.Start envs, st) in
  Forall Concurrent.succeeded (fst final) ->
  exists link',
    table (snd final) !! code = Some link' /\
    Link.clicks link' = Link.clicks link + Z.of_nat (length envs).
Proof.
  intros _ Hlook final Hall.
  destruct (counted_run code (Link.clicks link) sched _
              (counted_init code envs st link Hlook))
    as (row & Hrow & Hclicks).
  fold final in Hrow, Hclicks.
  exists row. split; [exact Hrow|].
  rewrite Hclicks, (redirect_count_all _ Hall).
  subst final. rewrite run_length. cbn [fst]. now rewrite length_map.
Qed.

Lemma C1_concurrent_resolutions_witness :
  let env k := mkEnv (fun _ => 0%nat) (1700000000000 + k) (1700000000001 + k) "" in
  let st :=
    mkStore {[ "docs2024" := Link.mk "ckv0" "docs2024" "https://example.org" 3
                                (Some 1600000000000) 1500000000000 1600000000000 ]}
      [] in
  let final :=
    Concurrent.run "docs2024" [0; 1; 2; 2; 0; 1]%nat
      (map Concurrent.Start [env 0; env 10; env 20], st) in
  exists link',
    table (snd final) !! "docs2024" = Some link' /\ Link.clicks link' = 3 + 3.
Proof.
  intros env st final.
  apply (C1_concurrent_resolutions "docs2024" [env 0; env 10; env 20]
           [0; 1; 2; 2; 0; 1]%nat st
           (Link.mk "ckv0" "docs2024" "https://example.org" 3
              (Some 1600000000000) 1500000000000 1600000000000)).
  - simpl. lia.
  - vm_compute. reflexivity.
  - vm_compute. repeat constructor; eexists; reflexivity.
Defined.

(** * Further properties of the handlers *)

(** ** [isValidCode] and [generateRandomCode] *)

(** X1.  [isValidCode] accepts exactly the strings of six, seven or eight
    characters each of which is a letter [A-Z], [a-z] or a digit: the empty
    string, a shorter or longer string, and a string with any other
    character (a newline at the end included) are rejected. *)
Theorem X1_isValidCode_accepts (code : string) :
  isValidCode code = true <->
  (String.length code = 6 \/ String.length code = 7 \/ String.length code = 8)%nat /\
  Forall (fun c => Whatwg.is_alpha c || Whatwg.is_digit c = true)
    (list_ascii_of_string code).
Proof.
  rewrite isValidCode_spec. split; intros [Hlen Hall]; (split; [lia|]);
    eapply Forall_impl; try exact Hall; intros c; cbv beta;
    unfold is_alnum, Js.in_class, Js.alnum, Js.in_range, Whatwg.is_alpha,
      Whatwg.is_digit, Whatwg.between, Whatwg.code; cbn [existsb fst snd];
    change (nat_of_ascii "A") with 65%nat; change (nat_of_ascii "Z") with 90%nat;
    change (nat_of_ascii "a") with 97%nat; change (nat_of_ascii "z") with 122%nat;
    change (nat_of_ascii "0") with 48%nat; change (nat_of_ascii "9") with 57%nat;
    rewrite ?orb_false_r, ?orb_assoc; intros H; exact H.
Qed.

Lemma get_lookup (s : string) (i : nat) :
  String.get i s = list_ascii_of_string s !! i.
Proof.
  revert i. induction s as [|c s IH]; intros [|i]; simpl; auto.
Qed.

Lemma chars_NoDup : NoDup (list_ascii_of_string chars).
Proof.
  apply (bool_decide_unpack (NoDup (list_ascii_of_string chars))).
  vm_compute. reflexivity.
Qed.

Lemma charAt_out_of_range (s : string) (i : nat) :
  (String.length s <= i)%nat -> Js.charAt s i = "".
Proof.
  intros H. unfold Js.charAt. rewrite get_lookup.
  rewrite lookup_ge_None_2; [reflexivity|].
  clear -H. revert i H. induction s as [|c s IH]; intros i H; simpl in *; [lia|].
  destruct i; [lia|]. specialize (IH i). lia.
Qed.

Lemma charAt_chars_inj (i j : nat) :
  (i < String.length chars)%nat -> (j < String.length chars)%nat ->
  Js.charAt chars i = Js.charAt chars j -> i = j.
Proof.
  intros Hi Hj. unfold Js.charAt. rewrite !get_lookup.
  destruct (list_ascii_of_string chars !! i) as [c|] eqn:Hci.
  - destruct (list_ascii_of_string chars !! j) as [d|] eqn:Hcj; [|discriminate].
    intros H. inversion H; subst d.
    exact (NoDup_lookup _ _ _ _ chars_NoDup Hci Hcj).
  - apply lookup_ge_None_1 in Hci. revert Hci Hi. vm_compute. lia.
Qed.

Lemma append_assoc (s t u : string) : (s ++ t) ++ u = s ++ (t ++ u).
Proof.
  induction s as [|c s IH]; [reflexivity|]. rewrite !append_cons. now rewrite IH.
Qed.

Lemma generate_from_prefix (rnd : Random) (n pos : nat) (code : string) :
  generate_from rnd n pos code = code ++ generate_from rnd n pos "".
Proof.
  revert pos code. induction n as [|n IH]; intros pos code; simpl.
  - now rewrite append_empty_r.
  - rewrite (IH (S pos) (code ++ _)), (IH (S pos) ("" ++ _)).
    now rewrite append_assoc.
Qed.

Lemma generate_from_step (rnd : Random) (n pos : nat) :
  generate_from rnd (S n) pos ""
  = Js.charAt chars (rnd pos) ++ generate_from rnd n (S pos) "".
Proof. simpl. now rewrite generate_from_prefix. Qed.

(** The generated string: never more than [n] characters, all of the
    alphabet, and [n] characters exactly when every draw is in range. *)
Lemma generate_from_length (rnd : Random) (n pos : nat) :
  let code := generate_from rnd n pos "" in
  (String.length code <= n)%nat /\
  Forall (fun c => is_alnum c = true) (list_ascii_of_string code) /\
  (String.length code = n <->
   forall k, (pos <= k < pos + n)%nat -> (rnd k < String.length chars)%nat).
Proof.
  revert pos. induction n as [|n IH]; intros pos; cbv zeta.
  - simpl. repeat split; auto; intros; lia.
  - rewrite generate_from_step.
    destruct (IH (S pos)) as (Hle & Hall & Hiff). cbv zeta in *.
    destruct (le_lt_dec (String.length chars) (rnd pos)) as [Hout|Hin].
    + rewrite (charAt_out_of_range chars _ Hout).
      change ("" ++ ?x) with x. split; [lia|]. split; [exact Hall|].
      split; [lia|]. intros H. specialize (H pos ltac:(lia)). lia.
    + destruct (charAt_chars _ Hin) as (c & -> & Hc).
      rewrite append_cons. change ("" ++ ?x) with x. simpl String.length.
      split; [lia|]. split; [simpl; constructor; assumption|].
      split.
      * intros H k Hk. destruct (decide (k = pos)) as [->|Hne]; [exact Hin|].
        apply Hiff; lia.
      * intros H. f_equal. apply Hiff. intros k Hk. apply H. lia.
Qed.

(** X2.  The code [generateRandomCode] builds has the format of
    [isValidCode] exactly when its six draws are indices into the alphabet;
    with a draw out of range, [charAt] contributes nothing and the code is
    too short. *)
Theorem X2_generated_code_valid_iff_draws_in_range (rnd : Random) (pos : nat) :
  isValidCode (fst (generateRandomCode rnd pos)) = true <->
  Forall (fun i => (i < 62)%nat) (draws rnd pos).
Proof.
  unfold generateRandomCode, draws. cbn [fst].
  destruct (generate_from_length rnd 6 pos) as (Hle & Hall & Hiff).
  cbv zeta in *. rewrite isValidCode_spec.
  change (String.length chars) with 62%nat in Hiff. split.
  - intros [Hlen _]. apply Forall_fmap, Forall_forall. intros k Hk.
    apply elem_of_seq in Hk. cbv beta. unfold compose. apply Hiff; lia.
  - intros H. apply Forall_fmap in H. rewrite Forall_forall in H.
    split; [|exact Hall].
    assert (String.length (generate_from rnd 6 pos "") = 6%nat) as ->; [|lia].
    apply Hiff. intros k Hk. apply (H k). apply elem_of_seq. lia.
Qed.

Lemma generate_from_inj (rnd rnd' : Random) (n pos pos' : nat) :
  (forall k, (pos <= k < pos + n)%nat -> (rnd k < String.length chars)%nat) ->
  (forall k, (pos' <= k < pos' + n)%nat -> (rnd' k < String.length chars)%nat) ->
  generate_from rnd n pos "" = generate_from rnd' n pos' "" ->
  map rnd (seq pos n) = map rnd' (seq pos' n).
Proof.
  revert pos pos'. induction n as [|n IH]; intros pos pos' Hr Hr' Heq;
    [reflexivity|].
  rewrite !generate_from_step in Heq.
  pose proof (Hr pos ltac:(lia)) as Hin. pose proof (Hr' pos' ltac:(lia)) as Hin'.
  destruct (charAt_chars _ Hin) as (c & Hc & _).
  destruct (charAt_chars _ Hin') as (c' & Hc' & _).
  rewrite Hc, Hc', !append_cons in Heq. change ("" ++ ?x) with x in Heq.
  inversion Heq as [[Hcc Hrest]]. subst c'.
  cbn [seq map]. f_equal.
  - apply charAt_chars_inj; auto. now rewrite Hc, Hc'.
  - apply IH; auto; intros k Hk; [apply Hr | apply Hr']; lia.
Qed.

(** X3.  With draws in range, different draws give different codes: the
    generator reaches each of the [62^6] codes of six characters by exactly
    one sequence of six draws. *)
Theorem X3_generated_code_determines_draws
    (rnd rnd' : Random) (pos pos' : nat) :
  in_range_draws rnd -> in_range_draws rnd' ->
  fst (generateRandomCode rnd pos) = fst (generateRandomCode rnd' pos') ->
  draws rnd pos = draws rnd' pos'.
Proof.
  intros Hr Hr' Heq. unfold draws.
  apply generate_from_inj; auto.
Qed.

Lemma X3_generated_code_determines_draws_witness :
  draws (fun k => k mod 62)%nat 0 = draws (fun k => (k + 124) mod 62)%nat 0.
Proof.
  apply (X3_generated_code_determines_draws
           (fun k => k mod 62)%nat (fun k => (k + 124) mod 62)%nat 0 0).
  - intros k. apply Nat.mod_upper_bound. discriminate.
  - intros k. apply Nat.mod_upper_bound. discriminate.
  - vm_compute. reflexivity.
Defined.

(** ** Listing *)

Lemma createdAt_desc_total : Total createdAt_desc.
Proof. intros a b. unfold createdAt_desc. lia. Qed.

Lemma createdAt_desc_transitive : Transitive createdAt_desc.
Proof. intros a b c. unfold createdAt_desc. lia. Qed.

Lemma list_response (st : Store) :
  ApiLinks.GET st
  = (NextResponse_json
       (LinksJson (merge_sort createdAt_desc (map_to_list (table st)).*2)) 200,
     issue QFindMany st).
Proof. reflexivity. Qed.

(** X4.  The list request always answers 200, whatever the table (empty
    included); its list holds every stored Link exactly once (it is a
    rearrangement of the rows), no Link [createdAt] later than one before it
    in the list; the table is as before and one query was issued. *)
Theorem X4_list_all_links_newest_first (st : Store) :
  exists links,
    ApiLinks.GET st
    = (NextResponse_json (LinksJson links) 200, issue QFindMany st) /\
    links ≡ₚ (map_to_list (table st)).*2 /\
    StronglySorted (fun a b => Link.createdAt b <= Link.createdAt a) links /\
    length links = size (table st) /\
    (forall link, link ∈ links <-> exists k, table st !! k = Some link).
Proof.
  exists (merge_sort createdAt_desc (map_to_list (table st)).*2).
  pose proof (merge_sort_Permutation createdAt_desc (map_to_list (table st)).*2)
    as Hperm.
  split; [apply list_response|]. split; [exact Hperm|]. split; [|split].
  - apply (@StronglySorted_merge_sort _ createdAt_desc _
             createdAt_desc_transitive createdAt_desc_total).
  - rewrite Hperm, length_fmap. apply length_map_to_list.
  - intros link. rewrite Hperm, list_elem_of_fmap. split.
    + intros ([k l] & -> & Hin). exists k. now apply elem_of_map_to_list.
    + intros (k & Hk). exists (k, link). split; [reflexivity|].
      now apply elem_of_map_to_list.
Qed.

(** ** Create, then list or resolve *)

Section AfterCreate.

Variable URL_new : string -> option Whatwg.URLRecord.

(** What a 201 tells about the request and the stores. *)
Lemma POST_created body env st st' link :
  ApiLinks.POST URL_new body env st = (NextResponse_json (LinkJson link) 201, st') ->
  table st !! Link.code link = None /\
  table st' = <[Link.code link := link]> (table st) /\
  link = new_link env (Link.code link) (Link.targetUrl link) /\
  body_targetUrl body = Some (Link.targetUrl link).
Proof.
  intros Hpost.
  assert (Hv : valid_target URL_new (body_targetUrl body) = true).
  { destruct (valid_target URL_new (body_targetUrl body)) eqn:Hv; [reflexivity|].
    destruct (POST_invalid_target URL_new body env st Hv) as (msg & Hres & _).
    rewrite Hres in Hpost. discriminate. }
  pose proof (POST_outcome URL_new body env st Hv) as Hout.
  rewrite Hpost in Hout. cbn [fst snd] in Hout.
  inversion Hout as [c Hc _ Hbad | c l Hc _ _ _
                     | c t Ht Hc _ Hok Hfree
                     | j t Ht Hf Hff | Hf _]; subst.
  - cbn [new_link Link.code Link.targetUrl table]. repeat split; auto.
  - apply first_free_Some in Hff as (_ & Hfree & _).
    cbn [new_link Link.code Link.targetUrl table]. repeat split; auto.
Qed.

(** X5.  After a create that answered 201, the next list request shows the
    Link of that answer. *)
Theorem X5_created_link_is_listed body env st st' link :
  ApiLinks.POST URL_new body env st = (NextResponse_json (LinkJson link) 201, st') ->
  exists links,
    fst (ApiLinks.GET st') = NextResponse_json (LinksJson links) 200 /\
    link ∈ links.
Proof.
  intros Hpost. destruct (POST_created _ _ _ _ _ Hpost) as (_ & Htable & _).
  eexists. rewrite list_response. split; [reflexivity|].
  rewrite merge_sort_Permutation. apply list_elem_of_fmap.
  exists (Link.code link, link). split; [reflexivity|].
  apply elem_of_map_to_list. rewrite Htable. apply lookup_insert_eq.
Qed.

(** X6.  After a create that answered 201, a resolve of the code of that
    answer redirects (302) to the target of the request, and the row then
    has [clicks = 1] and [lastClicked] the time of the resolve. *)
Theorem X6_created_link_resolves body env env' st st' link :
  ApiLinks.POST URL_new body env st = (NextResponse_json (LinkJson link) 201, st') ->
  let result := CodeRoute.GET (Link.code link) env' st' in
  body_targetUrl body = Some (Link.targetUrl link) /\
  fst result = NextResponse_redirect (Link.targetUrl link) 302 /\
  exists row,
    table (snd result) !! Link.code link = Some row /\
    Link.clicks row = 1 /\
    Link.lastClicked row = Some (now env') /\
    Link.targetUrl row = Link.targetUrl link.
Proof.
  intros Hpost result. subst result.
  destruct (POST_created _ _ _ _ _ Hpost) as (_ & Htable & Hlink & Hbody).
  split; [exact Hbody|].
  assert (Hint : is_Int (Link.clicks link + 1) = true)
    by (rewrite Hlink; reflexivity).
  rewrite (resolve_present (Link.code link) env' st' link);
    [|rewrite Htable; apply lookup_insert_eq | exact Hint].
  split; [reflexivity|]. exists (clicked env' link). cbn [snd table].
  split; [apply lookup_insert_eq|].
  rewrite Hlink. repeat split.
Qed.

End AfterCreate.

Lemma X5_created_link_is_listed_witness :
  let env := mkEnv (fun k => k mod 62)%nat 1700000000000 1700000000000 "ckv1" in
  let link := Link.mk "ckv1" "ABCDEF" "https://example.com" 0 None
                1700000000000 1700000000000 in
  let st' := mkStore {[ "ABCDEF" := link ]} [QFindUnique "ABCDEF"; QCreate "ABCDEF"] in
  exists links,
    fst (ApiLinks.GET st') = NextResponse_json (LinksJson links) 200 /\
    link ∈ links.
Proof.
  intros env link st'.
  apply (X5_created_link_is_listed Whatwg.parse
           (mkBody (Some "https://example.com") None) env (mkStore ∅ []) st' link).
  vm_compute. reflexivity.
Defined.

Lemma X6_created_link_resolves_witness :
  let env := mkEnv (fun k => k mod 62)%nat 1700000000000 1700000000000 "ckv1" in
  let env' := mkEnv (fun k => k mod 62)%nat 1700000005000 1700000005001 "ckv2" in
  let link := Link.mk "ckv1" "docs2024" "https://example.com" 0 None
                1700000000000 1700000000000 in
  let st' := mkStore {[ "docs2024" := link ]}
               [QFindUnique "docs2024"; QCreate "docs2024"] in
  let result := CodeRoute.GET "docs2024" env' st' in
  fst result = NextResponse_redirect "https://example.com" 302 /\
  exists row,
    table (snd result) !! "docs2024" = Some row /\
    Link.clicks row = 1 /\
    Link.lastClicked row = Some 1700000005000 /\
    Link.targetUrl row = "https://example.com".
Proof.
  intros env env' link st' result.
  destruct (X6_created_link_resolves Whatwg.parse
              (mkBody (Some "https://example.com") (Some "docs2024"))
              env env' (mkStore ∅ []) st' link) as (_ & H).
  - vm_compute. reflexivity.
  - exact H.
Defined.

(** ** Resolves of different codes *)

Ltac resolve_side :=
  try unfold issue; cbn [snd table];
  rewrite ?lookup_insert_ne by congruence; eassumption.

Ltac resolve_at c env s :=
  first [ erewrite (resolve_present c env s) by resolve_side
        | erewrite (resolve_refused c env s) by resolve_side
        | rewrite (resolve_absent c env s) by resolve_side ].

Ltac resolve_next :=
  first [ erewrite resolve_present by resolve_side
        | erewrite resolve_refused by resolve_side
        | erewrite resolve_absent by resolve_side ].

(** X7.  Two resolves of different codes can be served in either order: each
    gets the same response, and the final table is the same. *)
Theorem X7_resolves_of_different_codes_commute
    (code1 code2 : string) (env1 env2 : Env) (st : Store) :
  code1 <> code2 ->
  let r1 := CodeRoute.GET code1 env1 st in
  let r2 := CodeRoute.GET code2 env2 st in
  let r12 := CodeRoute.GET code2 env2 (snd r1) in
  let r21 := CodeRoute.GET code1 env1 (snd r2) in
  fst r12 = fst r2 /\ fst r21 = fst r1 /\
  table (snd r12) = table (snd r21).
Proof.
  intros Hne r1 r2 r12 r21. subst r1 r2 r12 r21.
  assert (Hne' : code2 <> code1) by congruence.
  destruct (table st !! code1) as [l1|] eqn:H1;
    [destruct (is_Int (Link.clicks l1 + 1)) eqn:Hi1|];
    (destruct (table st !! code2) as [l2|] eqn:H2;
     [destruct (is_Int (Link.clicks l2 + 1)) eqn:Hi2|]);
    resolve_at code1 env1 st; resolve_at code2 env2 st; cbn [snd];
    repeat resolve_next; unfold issue; cbn [fst snd table];
    repeat split; now apply insert_insert_ne.
Qed.

Lemma X7_resolves_of_different_codes_commute_witness :
  let env1 := mkEnv (fun _ => 0%nat) 1700000000000 1700000000001 "" in
  let env2 := mkEnv (fun _ => 0%nat) 1700000000500 1700000000501 "" in
  let st :=
    mkStore {[ "docs2024" := Link.mk "ckv0" "docs2024" "https://example.org" 3
                                (Some 1600000000000) 1500000000000 1600000000000 ]}
      [] in
  let r1 := CodeRoute.GET "docs2024" env1 st in
  let r2 := CodeRoute.GET "nothere1" env2 st in
  let r12 := CodeRoute.GET "nothere1" env2 (snd r1) in
  let r21 := CodeRoute.GET "docs2024" env1 (snd r2) in
  fst r12 = fst r2 /\ fst r21 = fst r1 /\
  table (snd r12) = table (snd r21).
Proof.
  intros env1 env2 st.
  apply (X7_resolves_of_different_codes_commute "docs2024" "nothere1" env1 env2 st).
  discriminate.
Defined.

(** ** Sequences of create, resolve and list requests *)

Section Sequences.

Variable URL_new : string -> option Whatwg.URLRecord.

(** What a create does to the table: nothing, or it adds the Link of its
    201 under a code that was free. *)
Lemma POST_table body env st :
  table (snd (ApiLinks.POST URL_new body env st)) = table st \/
  exists link,
    fst (ApiLinks.POST URL_new body env st) = NextResponse_json (LinkJson link) 201 /\
    table st !! Link.code link = None /\
    table (snd (ApiLinks.POST URL_new body env st))
    = <[Link.code link := link]> (table st) /\
    Link.clicks link = 0 /\ Link.lastClicked link = None.
Proof.
  destruct (valid_target URL_new (body_targetUrl body)) eqn:Hv.
  - pose proof (POST_outcome URL_new body env st Hv) as Hout.
    destruct (ApiLinks.POST URL_new body env st) as [r st1]. cbn [fst snd] in *.
    inversion Hout as [c Hc _ Hbad | c l Hc _ _ _
                       | c t Ht Hc _ Hok Hfree
                       | j t Ht Hf Hff | Hf _]; subst; cbn [table issue]; auto.
    + right. eexists. split; [reflexivity|]. repeat split; auto.
    + right. apply first_free_Some in Hff as (_ & Hfree & _).
      eexists. split; [reflexivity|]. repeat split; auto.
  - destruct (POST_invalid_target URL_new body env st Hv) as (msg & -> & _).
    now left.
Qed.

Lemma serve_clicks (code : string) (c : Registry.Call) (st : Store) :
  source_call c ->
  clicks_of (table (snd (Registry.serve URL_new c st))) code
  = clicks_of (table st) code
    + Z.of_nat (is_hit code c (fst (Registry.serve URL_new c st))).
Proof.
  intros Hsrc. destruct c as [body env | c env | c | | c];
    cbn [Registry.serve source_call] in *; try contradiction.
  - cbn [is_hit]. rewrite Z.add_0_r.
    destruct (POST_table body env st) as [-> | (link & _ & Hfree & -> & H0 & _)];
      [reflexivity|].
    unfold clicks_of. destruct (decide (Link.code link = code)) as [<-|Hne].
    + now rewrite lookup_insert_eq, Hfree.
    + now rewrite lookup_insert_ne.
  - destruct (table st !! c) as [link|] eqn:Hc;
      [destruct (is_Int (Link.clicks link + 1)) eqn:Hint|].
    + rewrite (resolve_present c env st link Hc Hint). cbn [fst snd table is_hit].
      unfold clicks_of. destruct (decide (c = code)) as [->|Hne].
      * rewrite lookup_insert_eq, Hc. cbn [clicked Link.clicks]. lia.
      * rewrite lookup_insert_ne by exact Hne. lia.
    + rewrite (resolve_refused c env st link Hc Hint). cbn [fst snd table is_hit]. lia.
    + rewrite (resolve_absent c env st Hc). cbn [fst snd table issue is_hit]. lia.
  - cbn [is_hit]. rewrite list_table. lia.
Qed.

(** X8.  Over any sequence of create, resolve and list requests, the value
    of [clicks] under a code grows by exactly the number of resolves of that
    code that were answered with the redirect (a code without a Link counts
    as 0): no click is recorded without a redirect, and none is missed. *)
Theorem X8_clicks_count_the_redirects
    (code : string) (cs : list Registry.Call) (st : Store) :
  Forall source_call cs ->
  let result := Registry.serve_all URL_new cs st in
  clicks_of (table (snd result)) code
  = clicks_of (table st) code + Z.of_nat (hits code cs (fst result)).
Proof.
  revert st. induction cs as [|c cs IH]; intros st Hsrc; cbv zeta.
  - simpl. lia.
  - inversion Hsrc as [|? ? Hc Hcs]; subst. cbn [Registry.serve_all].
    pose proof (serve_clicks code c st Hc) as Hstep.
    destruct (Registry.serve URL_new c st) as [r st1]. cbn [fst snd] in Hstep.
    specialize (IH st1 Hcs). cbv zeta in IH.
    destruct (Registry.serve_all URL_new cs st1) as [rs st2].
    cbn [fst snd hits] in *. lia.
Qed.

Lemma serve_consistent (c : Registry.Call) (st : Store) :
  source_call c -> consistent_rows (table st) ->
  consistent_rows (table (snd (Registry.serve URL_new c st))).
Proof.
  intros Hsrc Hrows. destruct c as [body env | c env | c | | c];
    cbn [Registry.serve source_call] in *; try contradiction.
  - destruct (POST_table body env st) as [-> | (link & _ & _ & -> & H0 & Hnone)];
      [exact Hrows|].
    intros k l Hl. destruct (decide (k = Link.code link)) as [->|Hne].
    + rewrite lookup_insert_eq in Hl. inversion Hl; subst l.
      split; [lia|]. now rewrite H0, Hnone.
    + rewrite lookup_insert_ne in Hl by congruence. now apply (Hrows k).
  - destruct (resolve_table c env st) as [[-> _] | (link & Hc & _ & _ & ->)];
      [exact Hrows|].
    intros k l Hl. destruct (decide (k = c)) as [->|Hne].
    + rewrite lookup_insert_eq in Hl. inversion Hl; subst l.
      destruct (Hrows c link Hc) as [Hpos _].
      unfold consistent_row. cbn [clicked Link.clicks Link.lastClicked].
      split; [lia|]. split; [discriminate | lia].
    + rewrite lookup_insert_ne in Hl by congruence. now apply (Hrows k).
  - exact Hrows.
Qed.

(** X9.  Create, resolve and list requests keep every row consistent: if in
    every row [clicks] is not negative and [lastClicked] is null exactly
    when [clicks] is 0, the same holds after any sequence of them. *)
Theorem X9_clicks_and_lastClicked_agree (cs : list Registry.Call) (st : Store) :
  Forall source_call cs ->
  consistent_rows (table st) ->
  consistent_rows (table (snd (Registry.serve_all URL_new cs st))).
Proof.
  revert st. induction cs as [|c cs IH]; intros st Hsrc Hrows; [exact Hrows|].
  inversion Hsrc as [|? ? Hc Hcs]; subst. cbn [Registry.serve_all].
  pose proof (serve_consistent c st Hc Hrows) as Hstep.
  destruct (Registry.serve URL_new c st) as [r st1]. cbn [snd] in Hstep.
  specialize (IH st1 Hcs Hstep).
  destruct (Registry.serve_all URL_new cs st1) as [rs st2]. exact IH.
Qed.

(** X10.  Starting from the empty table, after any sequence of create,
    resolve and list requests (with draws in range) every row is stored
    under its own code, and that code has the format of [isValidCode]:
    neither a requested nor a generated code of another format is ever
    stored. *)
Theorem X10_stored_codes_have_the_format (cs : list Registry.Call) :
  Forall source_call cs ->
  Forall call_in_range cs ->
  forall k link,
    table (snd (Registry.serve_all URL_new cs (mkStore ∅ []))) !! k = Some link ->
    Link.code link = k /\ isValidCode k = true.
Proof.
  intros _ Hr.
  exact (serve_all_well_formed URL_new cs (mkStore ∅ []) well_formed_empty Hr).
Qed.

End Sequences.

Lemma X8_clicks_count_the_redirects_witness :
  let env k := mkEnv (fun i => i mod 62)%nat (1700000000000 + k) (1700000000000 + k) "ckv" in
  let cs := [Registry.Resolve "docs2024" (env 1);
             Registry.Create (mkBody (Some "https://example.com") (Some "docs2024")) (env 2);
             Registry.Resolve "docs2024" (env 3);
             Registry.List;
             Registry.Resolve "docs2024" (env 4)] in
  let result := Registry.serve_all Whatwg.parse cs (mkStore ∅ []) in
  clicks_of (table (snd result)) "docs2024"
  = clicks_of ∅ "docs2024" + Z.of_nat (hits "docs2024" cs (fst result)).
Proof.
  intros env cs.
  apply (X8_clicks_count_the_redirects Whatwg.parse "docs2024" cs (mkStore ∅ [])).
  repeat constructor.
Defined.

Lemma X9_clicks_and_lastClicked_agree_witness :
  consistent_row
    (Link.mk "ckv" "ABCDEF" "https://example.com" 1 (Some 1700000000002)
       1700000000001 1700000000002).
Proof.
  pose (env := fun k => mkEnv (fun i => i mod 62)%nat
                         (1700000000000 + k) (1700000000000 + k) "ckv").
  pose (cs := [Registry.Create (mkBody (Some "https://example.com") None) (env 1);
               Registry.Resolve "ABCDEF" (env 2)]).
  apply (X9_clicks_and_lastClicked_agree Whatwg.parse cs (mkStore ∅ [])
           ltac:(repeat constructor)
           ltac:(intros k link H; cbn [table] in H; rewrite lookup_empty in H;
                 discriminate)
           "ABCDEF").
  vm_compute. reflexivity.
Defined.

Lemma X10_stored_codes_have_the_format_witness :
  Link.code (Link.mk "ckv" "docs2024" "https://example.org" 0 None
               1700000000002 1700000000002) = "docs2024" /\
  isValidCode "docs2024" = true.
Proof.
  pose (env := fun k => mkEnv (fun i => i mod 62)%nat
                         (1700000000000 + k) (1700000000000 + k) "ckv").
  pose (cs := [Registry.Create (mkBody (Some "https://example.com") None) (env 1);
               Registry.Create
                 (mkBody (Some "https://example.org") (Some "docs2024")) (env 2);
               Registry.Resolve "ABCDEF" (env 3)]).
  apply (X10_stored_codes_have_the_format Whatwg.parse cs).
  - repeat constructor.
  - subst cs.
    repeat (apply Forall_cons_2; [first [exact in_range_identity_mod | exact I]|]).
    apply Forall_nil_2.
  - vm_compute. reflexivity.
Defined.

(** ** What a create leaves alone *)

(** X11.  Whatever the request and whatever its outcome, a create changes or
    removes no stored Link; it adds one row when it answers 201 and none
    otherwise. *)
Theorem X11_create_keeps_stored_links
    (URL_new : string -> option Whatwg.URLRecord)
    (body : Body) (env : Env) (st : Store) :
  let result := ApiLinks.POST URL_new body env st in
  (forall k link, table st !! k = Some link ->
                  table (snd result) !! k = Some link) /\
  ((exists link, fst result = NextResponse_json (LinkJson link) 201) /\
   size (table (snd result)) = S (size (table st))
   \/
   (forall link status, fst result <> NextResponse_json (LinkJson link) status) /\
   table (snd result) = table st).
Proof.
  cbv zeta.
  destruct (valid_target URL_new (body_targetUrl body)) eqn:Hv.
  - pose proof (POST_outcome URL_new body env st Hv) as Hout.
    destruct (ApiLinks.POST URL_new body env st) as [r st1]. cbn [fst snd] in *.
    inversion Hout as [c Hc _ Hbad | c l Hc _ _ _
                       | c t Ht Hc _ Hok Hfree
                       | j t Ht Hf Hff | Hf _]; subst; cbn [table issue].
    + split; [auto|]. right. split; [discriminate | reflexivity].
    + split; [auto|]. right. split; [discriminate | reflexivity].
    + split.
      * intros k link Hk. rewrite lookup_insert_ne; [exact Hk | congruence].
      * left. split; [eauto|]. now apply map_size_insert_None.
    + apply first_free_Some in Hff as (_ & Hfree & _). split.
      * intros k link Hk. rewrite lookup_insert_ne; [exact Hk | congruence].
      * left. split; [eauto|]. now apply map_size_insert_None.
    + split; [auto|]. right. split; [discriminate | reflexivity].
  - destruct (POST_invalid_target URL_new body env st Hv) as (msg & -> & _).
    cbn [fst snd]. split; [auto|]. right. split; [discriminate | reflexivity].
Qed.

(** ** Concurrent creations *)

Section Creations.

Variable URL_new : string -> option Whatwg.URLRecord.

Lemma alone_done n r st :
  ConcurrentCreate.alone URL_new n (ConcurrentCreate.Done r, st)
  = (ConcurrentCreate.Done r, st).
Proof. induction n as [|n IH]; [reflexivity | exact IH]. Qed.

(** A task in the loop, served alone: it ends as the loop of [POST] does. *)
Lemma alone_drawing targetUrl env (n : nat) :
  forall (a m : nat) (st : Store),
    (a + n = ApiLinks.maxAttempts)%nat -> (n + 2 <= m)%nat ->
    ConcurrentCreate.alone URL_new m
      (ConcurrentCreate.Drawing targetUrl env a (6 * a), st)
    = match first_free (table st) (random env) n a with
      | Some j =>
          let code := candidate (random env) j in
          (ConcurrentCreate.Done
             (NextResponse_json (LinkJson (new_link env code targetUrl)) 201),
           mkStore (<[code := new_link env code targetUrl]> (table st))
             (trace st ++ lookups (random env) a (S j - a) ++ [QCreate code]))
      | None =>
          (ConcurrentCreate.Done
             (NextResponse_json
                (ErrorJson "Failed to generate unique code. Please try again.")
                500),
           mkStore (table st) (trace st ++ lookups (random env) a n))
      end.
Proof.
  unfold ApiLinks.maxAttempts.
  induction n as [|n IH]; intros a m st Ha Hm.
  - assert (a = 10%nat) as -> by lia. destruct m as [|m]; [lia|].
    cbn [ConcurrentCreate.alone fst snd ConcurrentCreate.step first_free].
    unfold ConcurrentCreate.draw, ApiLinks.maxAttempts.
    change (10 <? 10)%nat with false. cbv iota.
    rewrite alone_done. unfold lookups. cbn [seq map]. now rewrite store_eta.
  - destruct m as [|m]; [lia|].
    cbn [ConcurrentCreate.alone fst snd ConcurrentCreate.step first_free].
    unfold ConcurrentCreate.draw, ApiLinks.maxAttempts.
    assert ((a <? 10)%nat = true) as -> by (apply Nat.ltb_lt; lia).
    unfold generateRandomCode at 1.
    change (generate_from (random env) 6 (6 * a) "") with (candidate (random env) a).
    unfold prisma.findUnique.
    destruct (table st !! candidate (random env) a) eqn:Hlook.
    + replace (6 * a + 6)%nat with (6 * S a)%nat by lia.
      rewrite IH by lia. cbn [issue table trace].
      destruct (first_free (table st) (random env) n (S a)) as [j|] eqn:Hff.
      * apply first_free_Some in Hff as (Hj & _ & _).
        replace (S j - a)%nat with (S (S j - S a)) by lia.
        unfold lookups. cbn [seq map]. cbv zeta.
        now rewrite <- !app_assoc.
      * unfold lookups. cbn [seq map]. now rewrite <- app_assoc.
    + destruct m as [|m]; [lia|].
      cbn [ConcurrentCreate.alone fst snd ConcurrentCreate.step].
      unfold prisma.create, issue. cbn [table trace]. rewrite Hlook.
      rewrite alone_done. cbv zeta. unfold new_link, lookups.
      replace (S a - a)%nat with 1%nat by lia. cbn [seq map].
      now rewrite <- !app_assoc.
Qed.

(** A request served alone, given the twelve turns its queries can take at
    most, ends as [ApiLinks.POST] does: with the same response and the same
    store. *)
Lemma alone_is_POST body env st (m : nat) :
  (12 <= m)%nat ->
  ConcurrentCreate.alone URL_new m (ConcurrentCreate.Start body env, st)
  = (ConcurrentCreate.Done (fst (ApiLinks.POST URL_new body env st)),
     snd (ApiLinks.POST URL_new body env st)).
Proof.
  intros Hm. destruct m as [|m]; [lia|].
  cbn [ConcurrentCreate.alone fst snd ConcurrentCreate.step].
  destruct (Js.truthy_field (body_targetUrl body)) eqn:Ht; cbn [negb];
    [|unfold ApiLinks.POST, try_catch; rewrite Ht; cbn [negb fst snd];
      apply alone_done].
  destruct (ApiLinks.isValidUrl URL_new (default "" (body_targetUrl body))) eqn:Hu;
    cbn [negb];
    [|unfold ApiLinks.POST, try_catch; rewrite Ht, Hu; cbn [negb fst snd];
      apply alone_done].
  assert (Hv : valid_target URL_new (body_targetUrl body) = true)
    by (unfold valid_target; now rewrite Ht, Hu).
  destruct (valid_target_Some URL_new _ Hv) as (targetUrl & HtU & _).
  destruct (truthy_field_cases (body_code body)) as [(code & Hc & Hne & Htr)|Hf].
  - rewrite Htr, Hc, HtU. cbn [default from_option id].
    destruct (isValidCode code) eqn:Hok; cbn [negb].
    + unfold prisma.findUnique.
      destruct (table st !! code) as [link|] eqn:Hlook.
      * rewrite (POST_custom_taken URL_new body env st code link Hv Hc Hok Hlook).
        apply alone_done.
      * rewrite (POST_custom_free URL_new body env st code targetUrl
                   Hv HtU Hc Hok Hlook).
        destruct m as [|m]; [lia|].
        cbn [ConcurrentCreate.alone fst snd ConcurrentCreate.step].
        unfold prisma.create, issue. cbn [table trace]. rewrite Hlook.
        rewrite alone_done. unfold new_link. cbn [fst snd].
        now rewrite <- app_assoc.
    + rewrite (POST_custom_invalid URL_new body env st code Hv Hc Hne Hok).
      apply alone_done.
  - rewrite Hf, HtU. cbn [default from_option id].
    rewrite (POST_generated URL_new body env st targetUrl Hv HtU Hf).
    change (ConcurrentCreate.draw targetUrl env 0 0 st)
      with (ConcurrentCreate.step URL_new
              (ConcurrentCreate.Drawing targetUrl env 0 (6 * 0)) st).
    change (ConcurrentCreate.alone URL_new m
              (ConcurrentCreate.step URL_new
                 (ConcurrentCreate.Drawing targetUrl env 0 (6 * 0)) st))
      with (ConcurrentCreate.alone URL_new (S m)
              (ConcurrentCreate.Drawing targetUrl env 0 (6 * 0), st)).
    rewrite (alone_drawing targetUrl env ApiLinks.maxAttempts 0 (S m) st eq_refl)
      by (unfold ApiLinks.maxAttempts; lia).
    destruct (first_free (table st) (random env) ApiLinks.maxAttempts 0);
      cbv zeta; cbn [fst snd]; rewrite ?Nat.sub_0_r; reflexivity.
Qed.

End Creations.

Section ConcurrentCreations.

Variable URL_new : string -> option Whatwg.URLRecord.

Lemma winner_codes_insert (ts : list ConcurrentCreate.Task) (i : nat)
    (t t' : ConcurrentCreate.Task) :
  ts !! i = Some t -> ConcurrentCreate.winner_code t = None ->
  ConcurrentCreate.winner_codes (<[i := t']> ts)
  ≡ₚ (option_list (ConcurrentCreate.winner_code t')
      ++ ConcurrentCreate.winner_codes ts)%list.
Proof.
  unfold ConcurrentCreate.winner_codes.
  revert i. induction ts as [|u ts IH]; intros i Hi Hw; [discriminate|].
  destruct i as [|i]; simpl in Hi.
  - inversion Hi; subst u. simpl. rewrite Hw.
    destruct (ConcurrentCreate.winner_code t'); reflexivity.
  - specialize (IH i Hi Hw). simpl.
    destruct (ConcurrentCreate.winner_code u) as [c|]; [|exact IH].
    rewrite IH. destruct (ConcurrentCreate.winner_code t'); simpl;
      [apply perm_swap | reflexivity].
Qed.

(** What one query of a task does: stored rows stay as they are; a
    completed task stays as it is; and a task completes with 201 only by
    inserting its Link under a code that was free. *)
Lemma step_effect (t : ConcurrentCreate.Task) (st : Store) :
  let t' := fst (ConcurrentCreate.step URL_new t st) in
  let st' := snd (ConcurrentCreate.step URL_new t st) in
  (forall k link, table st !! k = Some link -> table st' !! k = Some link) /\
  match ConcurrentCreate.winner_code t with
  | Some _ => t' = t /\ st' = st
  | None =>
      forall link,
        t' = ConcurrentCreate.Done (NextResponse_json (LinkJson link) 201) ->
        table st !! Link.code link = None /\
        table st' !! Link.code link = Some link
  end.
Proof.
  cbv zeta. destruct t as [body env | targetUrl env a pos | targetUrl code env | r].
  - cbn [ConcurrentCreate.step ConcurrentCreate.winner_code].
    repeat match goal with
    | |- context [if ?b then _ else _] => destruct b
    end; cbn [fst snd]; try (split; [auto | discriminate]).
    + unfold prisma.findUnique. destruct (table st !! _);
        cbn [fst snd issue table]; split; auto; discriminate.
    + unfold ConcurrentCreate.draw.
      destruct (0 <? ApiLinks.maxAttempts)%nat; [|split; [auto | discriminate]].
      destruct (generateRandomCode (random env) 0) as [cand pos'].
      unfold prisma.findUnique. destruct (table st !! cand);
        cbn [fst snd issue table]; split; auto; discriminate.
  - cbn [ConcurrentCreate.step ConcurrentCreate.winner_code].
    unfold ConcurrentCreate.draw.
    destruct (a <? ApiLinks.maxAttempts)%nat; [|split; [auto | discriminate]].
    destruct (generateRandomCode (random env) pos) as [cand pos'].
    unfold prisma.findUnique. destruct (table st !! cand);
      cbn [fst snd issue table]; split; auto; discriminate.
  - cbn [ConcurrentCreate.step ConcurrentCreate.winner_code].
    unfold prisma.create. destruct (table st !! code) eqn:Hlook;
      cbn [fst snd issue table].
    + split; [auto | discriminate].
    + split.
      * intros k link Hk. rewrite lookup_insert_ne; [exact Hk | congruence].
      * intros link Heq. inversion Heq; subst link. cbn [Link.code].
        split; [exact Hlook | apply lookup_insert_eq].
  - cbn [ConcurrentCreate.step fst snd]. split; [auto|].
    destruct (ConcurrentCreate.winner_code (ConcurrentCreate.Done r)) eqn:Hw;
      [split; reflexivity|].
    intros link Heq. inversion Heq; subst r. discriminate Hw.
Qed.

Lemma winner_code_201 (t : ConcurrentCreate.Task) (c : string) :
  ConcurrentCreate.winner_code t = Some c <->
  exists link,
    t = ConcurrentCreate.Done (NextResponse_json (LinkJson link) 201) /\
    Link.code link = c.
Proof.
  split.
  - destruct t as [| | |[[| |link|] status|]]; try discriminate.
    cbn [ConcurrentCreate.winner_code].
    destruct (decide (status = 201)) as [->|Hne].
    + intros H. inversion H. eauto.
    + intros H. exfalso. revert H.
      repeat match goal with
      | |- context [match ?x with _ => _ end] => destruct x; try discriminate
      end; congruence.
  - intros (link & -> & <-). reflexivity.
Qed.

Lemma uncontended_schedule st0 cfg i :
  uncontended st0 cfg ->
  uncontended st0 (ConcurrentCreate.schedule URL_new cfg i).
Proof.
  destruct cfg as [ts st]. intros (Hmono & Hnodup & Hstored).
  unfold ConcurrentCreate.schedule. cbn [fst snd] in *.
  destruct (ts !! i) as [t|] eqn:Hi;
    [|exact (conj Hmono (conj Hnodup Hstored))].
  pose proof (step_effect t st) as [Hkeep Hwin]. cbv zeta in Hkeep, Hwin.
  destruct (ConcurrentCreate.step URL_new t st) as [t' st'] eqn:Hstep.
  cbn [fst snd] in *.
  destruct (ConcurrentCreate.winner_code t) as [c|] eqn:Hw.
  - destruct Hwin as [-> ->]. rewrite list_insert_id by exact Hi.
    exact (conj Hmono (conj Hnodup Hstored)).
  - split; [cbn [snd]; auto|]. cbn [fst snd]. split.
    + rewrite (winner_codes_insert ts i t t' Hi Hw).
      destruct (ConcurrentCreate.winner_code t') as [c|] eqn:Hw'; [|exact Hnodup].
      apply winner_code_201 in Hw' as (link & -> & <-).
      destruct (Hwin link eq_refl) as [Hfree _].
      cbn [option_list app]. apply NoDup_cons. split; [|exact Hnodup].
      intros Hin. unfold ConcurrentCreate.winner_codes in Hin.
      apply list_elem_of_omap in Hin as (u & Hu & Hwu).
      apply list_elem_of_lookup in Hu as (j & Hj).
      apply winner_code_201 in Hwu as (l & -> & Hcode).
      destruct (Hstored j l Hj) as [_ Hl]. rewrite Hcode in Hl. congruence.
    + intros j link Hj. destruct (decide (j = i)) as [->|Hne].
      * rewrite list_lookup_insert_eq in Hj by (eapply lookup_lt_Some, Hi).
        inversion Hj; subst t'. destruct (Hwin link eq_refl) as [Hfree Hin].
        split; [|exact Hin].
        destruct (table st0 !! Link.code link) as [l0|] eqn:H0; [|reflexivity].
        apply Hmono in H0. congruence.
      * rewrite list_lookup_insert_ne in Hj by congruence.
        destruct (Hstored j link Hj) as [H0 Hl]. split; [exact H0 | auto].
Qed.

Lemma uncontended_run st0 sched :
  forall cfg, uncontended st0 cfg ->
              uncontended st0 (ConcurrentCreate.run URL_new sched cfg).
Proof.
  unfold ConcurrentCreate.run.
  induction sched as [|i sched IH]; intros cfg H; [exact H|].
  simpl. apply IH. now apply uncontended_schedule.
Qed.

(** X13.  Create requests of any kind are in flight at the same time and
    their queries interleave in any order.  No two of them are answered 201
    with the same code; a code answered with 201 was free when the requests
    arrived; and the Link of every 201 is in the table at the end, under its
    code and as it was answered: no create overwrites the Link of another. *)
Theorem X13_concurrent_creates_never_share_a_code
    (reqs : list (Body * Env)) (sched : list nat) (st : Store) :
  let final :=
    ConcurrentCreate.run URL_new sched
      (map (fun r => ConcurrentCreate.Start (fst r) (snd r)) reqs, st) in
  NoDup (ConcurrentCreate.winner_codes (fst final)) /\
  (forall i link,
     fst final !! i
     = Some (ConcurrentCreate.Done (NextResponse_json (LinkJson link) 201)) ->
     table st !! Link.code link = None /\
     table (snd final) !! Link.code link = Some link) /\
  (forall k link, table st !! k = Some link ->
                  table (snd final) !! k = Some link).
Proof.
  cbv zeta.
  assert (Hinit : uncontended st
            (map (fun r => ConcurrentCreate.Start (fst r) (snd r)) reqs, st)).
  { split; [auto|]. cbn [fst snd]. split.
    - replace (ConcurrentCreate.winner_codes _) with (@nil string);
        [apply NoDup_nil_2|].
      unfold ConcurrentCreate.winner_codes. induction reqs; simpl; auto.
    - intros i link Hi. apply list_lookup_fmap_Some in Hi as (r & Heq & _).
      discriminate. }
  destruct (uncontended_run st sched _ Hinit) as (Hmono & Hnodup & Hstored).
  split; [exact Hnodup|]. split; [exact Hstored | exact Hmono].
Qed.

End ConcurrentCreations.

Section Contest.

Variable URL_new : string -> option Whatwg.URLRecord.

Lemma isValidCode_nonempty code : isValidCode code = true -> Js.truthy code = true.
Proof. destruct code; [discriminate | reflexivity]. Qed.

Lemma step_start_free targetUrl code env st :
  valid_target URL_new (Some targetUrl) = true -> isValidCode code = true ->
  table st !! code = None ->
  ConcurrentCreate.step URL_new
    (ConcurrentCreate.Start (mkBody (Some targetUrl) (Some code)) env) st
  = (ConcurrentCreate.Inserting targetUrl code env, issue (QFindUnique code) st).
Proof.
  intros Hv Hok Hfree. unfold valid_target in Hv.
  apply andb_true_iff in Hv as [Ht Hu].
  cbn [ConcurrentCreate.step body_targetUrl body_code Js.truthy_field].
  cbn [Js.truthy_field default from_option id] in Ht, Hu.
  rewrite Ht. cbn [negb default from_option id]. rewrite Hu, Hok.
  rewrite (isValidCode_nonempty code Hok). cbn [negb].
  unfold prisma.findUnique. now rewrite Hfree.
Qed.

Lemma step_start_taken targetUrl code env st link :
  valid_target URL_new (Some targetUrl) = true -> isValidCode code = true ->
  table st !! code = Some link ->
  ConcurrentCreate.step URL_new
    (ConcurrentCreate.Start (mkBody (Some targetUrl) (Some code)) env) st
  = (ConcurrentCreate.Done
       (NextResponse_json (ErrorJson "This short code is already taken") 409),
     issue (QFindUnique code) st).
Proof.
  intros Hv Hok Htaken. unfold valid_target in Hv.
  apply andb_true_iff in Hv as [Ht Hu].
  cbn [ConcurrentCreate.step body_targetUrl body_code Js.truthy_field].
  cbn [Js.truthy_field default from_option id] in Ht, Hu.
  rewrite Ht. cbn [negb default from_option id]. rewrite Hu, Hok.
  rewrite (isValidCode_nonempty code Hok). cbn [negb].
  unfold prisma.findUnique. now rewrite Htaken.
Qed.

Lemma step_insert_free targetUrl code env st :
  table st !! code = None ->
  ConcurrentCreate.step URL_new (ConcurrentCreate.Inserting targetUrl code env) st
  = (ConcurrentCreate.Done
       (NextResponse_json (LinkJson (new_link env code targetUrl)) 201),
     mkStore (<[code := new_link env code targetUrl]> (table st))
       (trace st ++ [QCreate code])).
Proof.
  intros Hfree. cbn [ConcurrentCreate.step]. unfold prisma.create.
  now rewrite Hfree.
Qed.

Lemma step_insert_taken targetUrl code env st link :
  table st !! code = Some link ->
  ConcurrentCreate.step URL_new (ConcurrentCreate.Inserting targetUrl code env) st
  = (ConcurrentCreate.Done
       (NextResponse_json (ErrorJson "Failed to create link") 500),
     issue (QCreate code) st).
Proof.
  intros Htaken. cbn [ConcurrentCreate.step]. unfold prisma.create.
  now rewrite Htaken.
Qed.

Lemma no_winner_yet (ts : list ConcurrentCreate.Task) :
  Forall (fun t => ~ ConcurrentCreate.completed t) ts ->
  ConcurrentCreate.winner_codes ts = [].
Proof.
  unfold ConcurrentCreate.winner_codes.
  induction 1 as [|t ts Ht _ IH]; [reflexivity|].
  destruct t as [| | |r]; [exact IH | exact IH | exact IH |].
  exfalso. apply Ht. now exists r.
Qed.

Lemma create_run_length sched :
  forall cfg,
    length (fst (ConcurrentCreate.run URL_new sched cfg)) = length (fst cfg).
Proof.
  unfold ConcurrentCreate.run.
  induction sched as [|i sched IH]; intros cfg; [reflexivity|].
  simpl. rewrite IH. unfold ConcurrentCreate.schedule.
  destruct (fst cfg !! i); [|reflexivity].
  destruct (ConcurrentCreate.step URL_new t (snd cfg)). cbn [fst].
  apply length_insert.
Qed.

Lemma contested_schedule code cfg i :
  isValidCode code = true ->
  contested URL_new code cfg ->
  contested URL_new code (ConcurrentCreate.schedule URL_new cfg i).
Proof.
  intros Hok. destruct cfg as [ts st]. intros [Hall Hphase].
  unfold ConcurrentCreate.schedule. cbn [fst snd] in *.
  destruct (ts !! i) as [t|] eqn:Hi; [|exact (conj Hall Hphase)].
  assert (Hcont : contender URL_new code t)
    by (rewrite Forall_lookup in Hall; exact (Hall i t Hi)).
  destruct Hcont as [(u & e & -> & Hv) | [(u & e & ->) | [Hw | Hlost]]].
  - destruct Hphase as [[Hfree Hnone] | [[l Hl] Hwin]].
    + rewrite (step_start_free u code e st Hv Hok Hfree). split; cbn [fst snd].
      * apply Forall_insert; [exact Hall|]. right; left. eauto.
      * left. split; [exact Hfree|].
        apply Forall_insert; [exact Hnone|]. intros [r Hr]. discriminate.
    + rewrite (step_start_taken u code e st l Hv Hok Hl). split; cbn [fst snd].
      * apply Forall_insert; [exact Hall|]. right; right; right. now left.
      * right. split; [cbn [issue table]; eauto|].
        apply Permutation_singleton_r.
        rewrite (winner_codes_insert ts i _ _ Hi eq_refl). now rewrite Hwin.
  - destruct Hphase as [[Hfree Hnone] | [[l Hl] Hwin]].
    + rewrite (step_insert_free u code e st Hfree). split; cbn [fst snd].
      * apply Forall_insert; [exact Hall|]. right; right; left. reflexivity.
      * right. split; [cbn [table]; rewrite lookup_insert_eq; eauto|].
        apply Permutation_singleton_r.
        rewrite (winner_codes_insert ts i _ _ Hi eq_refl).
        now rewrite (no_winner_yet ts Hnone).
    + rewrite (step_insert_taken u code e st l Hl). split; cbn [fst snd].
      * apply Forall_insert; [exact Hall|]. right; right; right. now right.
      * right. split; [cbn [issue table]; eauto|].
        apply Permutation_singleton_r.
        rewrite (winner_codes_insert ts i _ _ Hi eq_refl). now rewrite Hwin.
  - apply winner_code_201 in Hw as (link & -> & _).
    cbn [ConcurrentCreate.step]. rewrite list_insert_id by exact Hi.
    exact (conj Hall Hphase).
  - destruct Hlost as [-> | ->]; cbn [ConcurrentCreate.step];
      rewrite list_insert_id by exact Hi; exact (conj Hall Hphase).
Qed.

Lemma contested_run code sched :
  isValidCode code = true ->
  forall cfg, contested URL_new code cfg ->
              contested URL_new code (ConcurrentCreate.run URL_new sched cfg).
Proof.
  intros Hok. unfold ConcurrentCreate.run.
  induction sched as [|i sched IH]; intros cfg H; [exact H|].
  simpl. apply IH. now apply contested_schedule.
Qed.

(** X14.  Several requests to create a Link with the same requested code, a
    code of the right format that is free when they arrive, are in flight at
    the same time, with valid targets.  Whatever the interleaving of their
    queries, once they have all completed exactly one of them has been
    answered 201 and its Link holds the code; each of the others has been
    answered 409 or with the fallback of the [catch], 500 "Failed to create
    link". *)
Theorem X14_one_winner_per_requested_code
    (code : string) (reqs : list (string * Env)) (sched : list nat) (st : Store) :
  isValidCode code = true ->
  table st !! code = None ->
  Forall (fun r => valid_target URL_new (Some (fst r)) = true) reqs ->
  reqs <> [] ->
  let final :=
    ConcurrentCreate.run URL_new sched (ConcurrentCreate.arrivals code reqs, st) in
  Forall ConcurrentCreate.completed (fst final) ->
  ConcurrentCreate.winner_codes (fst final) = [code] /\
  is_Some (table (snd final) !! code) /\
  Forall (fun t => ConcurrentCreate.winner_code t = Some code
                   \/ ConcurrentCreate.lost t) (fst final).
Proof.
  intros Hok Hfree Hvalid Hne final Hdone.
  assert (Hinit : contested URL_new code (ConcurrentCreate.arrivals code reqs, st)).
  { split; cbn [fst snd].
    - unfold ConcurrentCreate.arrivals. apply Forall_fmap.
      eapply Forall_impl; [exact Hvalid|]. intros [u e] Hv. left. eauto.
    - left. split; [exact Hfree|].
      unfold ConcurrentCreate.arrivals. apply Forall_fmap, Forall_forall.
      intros r _ [x Hx]. discriminate. }
  destruct (contested_run code sched Hok _ Hinit) as [Hall Hphase].
  fold final in Hall, Hphase.
  assert (Hlen : length (fst final) = length reqs).
  { subst final. rewrite create_run_length. cbn [fst].
    unfold ConcurrentCreate.arrivals. apply length_fmap. }
  destruct Hphase as [[_ Hnone] | [Htaken Hwin]].
  - exfalso. destruct (fst final) as [|t ts].
    + destruct reqs; [congruence | discriminate].
    + inversion Hdone; subst. inversion Hnone; subst. contradiction.
  - split; [exact Hwin|]. split; [exact Htaken|].
    rewrite Forall_forall in Hall, Hdone. apply Forall_forall. intros t Ht.
    destruct (Hdone t Ht) as [r ->].
    destruct (Hall _ Ht) as [(u & e & Heq & _) | [(u & e & Heq) | [Hw | Hl]]];
      try discriminate; auto.
Qed.

(** X15.  Two such requests whose queries alternate (both look the code up
    before either inserts): the first to insert is answered 201; the other,
    which had found the code free, has its insertion refused by the unique
    constraint and is answered 500 "Failed to create link", not 409.  The
    table holds the Link of the first. *)
Theorem X15_loser_of_the_race_gets_the_fallback
    (code targetUrl1 targetUrl2 : string) (env1 env2 : Env) (st : Store) :
  isValidCode code = true ->
  table st !! code = None ->
  valid_target URL_new (Some targetUrl1) = true ->
  valid_target URL_new (Some targetUrl2) = true ->
  ConcurrentCreate.run URL_new [0; 1; 0; 1]%nat
    (ConcurrentCreate.arrivals code [(targetUrl1, env1); (targetUrl2, env2)], st)
  = ([ConcurrentCreate.Done
        (NextResponse_json (LinkJson (new_link env1 code targetUrl1)) 201);
      ConcurrentCreate.Done
        (NextResponse_json (ErrorJson "Failed to create link") 500)],
     mkStore (<[code := new_link env1 code targetUrl1]> (table st))
       (trace st ++ [QFindUnique code; QFindUnique code;
                     QCreate code; QCreate code])).
Proof.
  intros Hok Hfree Hv1 Hv2.
  unfold ConcurrentCreate.run, ConcurrentCreate.arrivals.
  cbn [map fst snd fold_left].
  unfold ConcurrentCreate.schedule at 4. cbn [fst snd].
  change ([?a; ?b] !! 0%nat) with (Some a). cbv beta iota.
  rewrite (step_start_free targetUrl1 code env1 st Hv1 Hok Hfree).
  change (<[0%nat := ?x]> [?a; ?b]) with [x; b].
  unfold ConcurrentCreate.schedule at 3. cbn [fst snd].
  change ([?a; ?b] !! 1%nat) with (Some b). cbv beta iota.
  rewrite (step_start_free targetUrl2 code env2 _ Hv2 Hok) by exact Hfree.
  change (<[1%nat := ?x]> [?a; ?b]) with [a; x].
  unfold ConcurrentCreate.schedule at 2. cbn [fst snd].
  change ([?a; ?b] !! 0%nat) with (Some a). cbv beta iota.
  rewrite (step_insert_free targetUrl1 code env1 _) by exact Hfree.
  change (<[0%nat := ?x]> [?a; ?b]) with [x; b].
  unfold ConcurrentCreate.schedule. cbn [fst snd].
  change ([?a; ?b] !! 1%nat) with (Some b). cbv beta iota.
  rewrite (step_insert_taken targetUrl2 code env2 _ (new_link env1 code targetUrl1))
    by (cbn [table]; apply lookup_insert_eq).
  change (<[1%nat := ?x]> [?a; ?b]) with [a; x].
  unfold issue. cbn [table trace]. now rewrite <- !app_assoc.
Qed.

End Contest.

Lemma X14_one_winner_per_requested_code_witness :
  let env1 := mkEnv (fun k => k) 1700000000000 1700000000000 "ckv1" in
  let env2 := mkEnv (fun k => k) 1700000000001 1700000000001 "ckv2" in
  let env3 := mkEnv (fun k => k) 1700000000002 1700000000002 "ckv3" in
  let final :=
    ConcurrentCreate.run Whatwg.parse [0; 1; 1; 2; 0; 2]%nat
      (ConcurrentCreate.arrivals "docs2024"
         [("https://example.com", env1); ("https://example.org", env2);
          ("https://example.net", env3)],
       mkStore ∅ []) in
  ConcurrentCreate.winner_codes (fst final) = ["docs2024"] /\
  is_Some (table (snd final) !! "docs2024") /\
  Forall (fun t => ConcurrentCreate.winner_code t = Some "docs2024"
                   \/ ConcurrentCreate.lost t) (fst final).
Proof.
  intros env1 env2 env3.
  apply (X14_one_winner_per_requested_code Whatwg.parse "docs2024"
           [("https://example.com", env1); ("https://example.org", env2);
            ("https://example.net", env3)]
           [0; 1; 1; 2; 0; 2]%nat (mkStore ∅ [])).
  - reflexivity.
  - reflexivity.
  - repeat (apply Forall_cons_2; [reflexivity|]). apply Forall_nil_2.
  - discriminate.
  - vm_compute. repeat (apply Forall_cons_2; [eexists; reflexivity|]).
    apply Forall_nil_2.
Defined.

Lemma X15_loser_of_the_race_gets_the_fallback_witness :
  let env1 := mkEnv (fun k => k) 1700000000000 1700000000000 "ckv1" in
  let env2 := mkEnv (fun k => k) 1700000000001 1700000000001 "ckv2" in
  ConcurrentCreate.run Whatwg.parse [0; 1; 0; 1]%nat
    (ConcurrentCreate.arrivals "docs2024"
       [("https://example.com", env1); ("https://example.org", env2)],
     mkStore ∅ [])
  = ([ConcurrentCreate.Done
        (NextResponse_json
           (LinkJson (new_link env1 "docs2024" "https://example.com")) 201);
      ConcurrentCreate.Done
        (NextResponse_json (ErrorJson "Failed to create link") 500)],
     mkStore (<["docs2024" := new_link env1 "docs2024" "https://example.com"]> ∅)
       ([] ++ [QFindUnique "docs2024"; QFindUnique "docs2024";
               QCreate "docs2024"; QCreate "docs2024"])).
Proof.
  intros env1 env2.
  apply (X15_loser_of_the_race_gets_the_fallback Whatwg.parse "docs2024"
           "https://example.com" "https://example.org" env1 env2 (mkStore ∅ []));
    reflexivity.
Defined.

(** ** Targets the URL constructor rejects *)

Lemma In_drop_while p c s :
  In c (list_ascii_of_string (Whatwg.drop_while p s)) ->
  In c (list_ascii_of_string s).
Proof.
  induction s as [|d s IH]; simpl; [auto|].
  destruct (p d); simpl; auto.
Qed.

Lemma In_strip_trailing p c s :
  In c (list_ascii_of_string (Whatwg.strip_trailing p s)) ->
  In c (list_ascii_of_string s).
Proof.
  induction s as [|d s IH]; simpl; [auto|].
  destruct (Whatwg.strip_trailing p s) eqn:Hs.
  - destruct (p d); simpl; tauto.
  - simpl in *. tauto.
Qed.

Lemma In_remove p c s :
  In c (list_ascii_of_string (Whatwg.remove p s)) ->
  In c (list_ascii_of_string s).
Proof.
  induction s as [|d s IH]; simpl; [auto|].
  destruct (p d); simpl; tauto.
Qed.

Lemma scheme_state_colon s buffer sch rest :
  Whatwg.scheme_state s buffer = Some (sch, rest) -> has_colon s.
Proof.
  unfold has_colon. revert buffer.
  induction s as [|c s IH]; intros buffer H; [discriminate|].
  simpl in H. destruct (Whatwg.code c =? 58)%nat eqn:Hc.
  - left. apply Nat.eqb_eq in Hc. unfold Whatwg.code in Hc.
    rewrite <- (ascii_nat_embedding c), Hc. reflexivity.
  - right. destruct (_ || _) in H; [eauto | discriminate].
Qed.

Lemma parse_needs_colon (s : string) :
  ~ has_colon s -> Whatwg.parse s = None.
Proof.
  intros Hno. unfold Whatwg.parse.
  destruct (Whatwg.scheme_start_state (Whatwg.preprocess s))
    as [[sch rest]|] eqn:Hs; [|reflexivity].
  exfalso. apply Hno. unfold Whatwg.scheme_start_state in Hs.
  destruct (Whatwg.preprocess s) as [|c p] eqn:Hp; [discriminate|].
  destruct (Whatwg.is_alpha c); [|discriminate].
  apply scheme_state_colon in Hs. rewrite <- Hp in Hs.
  unfold has_colon, Whatwg.preprocess in *.
  eapply In_drop_while, In_strip_trailing, In_remove, Hs.
Qed.

(** X16.  A target without a colon has no scheme: the URL constructor
    rejects it, so the create fails with 400 before any query, whatever the
    rest of the request. *)
Theorem X16_target_without_scheme_rejected
    (body : Body) (targetUrl : string) (env : Env) (st : Store) :
  body_targetUrl body = Some targetUrl ->
  ~ has_colon targetUrl ->
  ApiLinks.isValidUrl Whatwg.parse targetUrl = false /\
  error_kind (fst (ApiLinks.POST Whatwg.parse body env st)) = Some InvalidTarget /\
  snd (ApiLinks.POST Whatwg.parse body env st) = st.
Proof.
  intros Hb Hno.
  assert (Hurl : ApiLinks.isValidUrl Whatwg.parse targetUrl = false)
    by (unfold ApiLinks.isValidUrl; now rewrite (parse_needs_colon _ Hno)).
  split; [exact Hurl|].
  assert (Hv : valid_target Whatwg.parse (body_targetUrl body) = false).
  { unfold valid_target. rewrite Hb. cbn [default from_option id].
    rewrite Hurl. apply andb_false_r. }
  destruct (POST_invalid_target Whatwg.parse body env st Hv) as (msg & -> & Hmsg).
  split; [|reflexivity]. destruct Hmsg as [-> | ->]; reflexivity.
Qed.

Lemma X16_target_without_scheme_rejected_witness :
  let body := mkBody (Some "example.com/page") (Some "docs2024") in
  let env := mkEnv (fun k => k) 1700000000000 1700000000000 "ckv1" in
  ApiLinks.isValidUrl Whatwg.parse "example.com/page" = false /\
  error_kind (fst (ApiLinks.POST Whatwg.parse body env (mkStore ∅ [])))
  = Some InvalidTarget /\
  snd (ApiLinks.POST Whatwg.parse body env (mkStore ∅ [])) = mkStore ∅ [].
Proof.
  intros body env.
  apply (X16_target_without_scheme_rejected body "example.com/page" env (mkStore ∅ [])).
  - reflexivity.
  - unfold has_colon. simpl. intros H.
    repeat (destruct H as [H|H]; [discriminate H|]). exact H.
Defined.

(** ** The search box of the dashboard *)

Lemma prefix_empty (s : string) : String.prefix "" s = true.
Proof. destruct s; reflexivity. Qed.

Lemma includes_empty (s : string) : Dashboard.includes s "" = true.
Proof. destruct s; reflexivity. Qed.

Lemma prefix_lower (a b : string) :
  String.prefix a b = true ->
  String.prefix (Whatwg.lower a) (Whatwg.lower b) = true.
Proof.
  revert b. induction a as [|c a IH]; intros b H; [apply prefix_empty|].
  destruct b as [|d b]; [discriminate|]. simpl in *.
  destruct (ascii_dec c d) as [->|Hne]; [|discriminate].
  destruct (ascii_dec (Whatwg.to_lower d) (Whatwg.to_lower d)); [auto | congruence].
Qed.

Lemma includes_lower (s sub : string) :
  Dashboard.includes s sub = true ->
  Dashboard.includes (Whatwg.lower s) (Whatwg.lower sub) = true.
Proof.
  induction s as [|c s IH]; intros H.
  - simpl in *. rewrite orb_false_r in *. now apply (prefix_lower sub "").
  - cbn [Dashboard.includes] in H. apply orb_true_iff in H as [H|H].
    + apply (prefix_lower sub (String c s)) in H.
      cbn [Whatwg.lower Dashboard.includes] in *. now rewrite H.
    + cbn [Whatwg.lower Dashboard.includes]. rewrite (IH H). apply orb_true_r.
Qed.

(** X18.  With an empty search box the dashboard shows every link, in the
    order it received them. *)
Theorem X18_empty_search_shows_all (links : list Link.t) :
  Dashboard.filteredLinks links "" = links.
Proof.
  unfold Dashboard.filteredLinks.
  induction links as [|l links IH]; [reflexivity|].
  cbn [List.filter]. unfold Dashboard.matches at 1.
  change (Dashboard.toLowerCase "") with "". rewrite includes_empty.
  cbn [orb]. now rewrite IH.
Qed.

(** X19.  For texts of the ASCII range: a link is shown whenever the text of
    the search box is, up to the case of its letters, a fragment of the
    link's code or of its target; and nothing is shown that was not among
    the links received. *)
Theorem X19_search_finds_fragments
    (links : list Link.t) (link : Link.t) (searchQuery fragment : string) :
  ascii_only searchQuery -> ascii_only fragment ->
  ascii_only (Link.code link) -> ascii_only (Link.targetUrl link) ->
  In link links ->
  Dashboard.includes (Link.code link) fragment = true
  \/ Dashboard.includes (Link.targetUrl link) fragment = true ->
  Dashboard.toLowerCase searchQuery = Dashboard.toLowerCase fragment ->
  In link (Dashboard.filteredLinks links searchQuery) /\
  (forall l, In l (Dashboard.filteredLinks links searchQuery) -> In l links).
Proof.
  intros _ _ _ _ Hin Hfrag Hcase. unfold Dashboard.filteredLinks. split.
  - apply filter_In. split; [exact Hin|].
    unfold Dashboard.matches. rewrite Hcase. unfold Dashboard.toLowerCase.
    apply orb_true_iff.
    destruct Hfrag as [H|H]; [left | right]; now apply includes_lower.
  - intros l Hl. apply filter_In in Hl. tauto.
Qed.

Lemma X19_search_finds_fragments_witness :
  let link := Link.mk "ckv1" "Docs2024" "https://Example.com/guide" 0 None
                1700000000000 1700000000000 in
  let other := Link.mk "ckv2" "abcdef" "https://example.org" 0 None
                 1700000000001 1700000000001 in
  In link (Dashboard.filteredLinks [other; link] "EXAMPLE.COM") /\
  (forall l, In l (Dashboard.filteredLinks [other; link] "EXAMPLE.COM") ->
             In l [other; link]).
Proof.
  intros link other.
  apply (X19_search_finds_fragments [other; link] link "EXAMPLE.COM" "Example.com").
  - unfold ascii_only. simpl.
    repeat (apply Forall_cons_2; [apply Nat.ltb_lt; reflexivity|]). apply Forall_nil_2.
  - unfold ascii_only. simpl.
    repeat (apply Forall_cons_2; [apply Nat.ltb_lt; reflexivity|]). apply Forall_nil_2.
  - unfold ascii_only. simpl.
    repeat (apply Forall_cons_2; [apply Nat.ltb_lt; reflexivity|]). apply Forall_nil_2.
  - unfold ascii_only. simpl.
    repeat (apply Forall_cons_2; [apply Nat.ltb_lt; reflexivity|]). apply Forall_nil_2.
  - right. left. reflexivity.
  - right. vm_compute. reflexivity.
  - vm_compute. reflexivity.
Defined.
